(** * Column-wise normalization of the Boston-housing example

    A shallow embedding of [boston-housing/normalization.js] together with
    the part of the tensor library the module calls (method dispatch on
    tensors, broadcasting, reductions along axis 0, [slice]), and the
    properties the specification states about the six exported functions.

    Two models of the numbers are used.  In the first, [num], numbers are
    real numbers extended with the three special values of IEEE 754
    arithmetic ([+Infinity], [-Infinity], [NaN]): finite arithmetic is
    exact, the special values follow the IEEE rules, zero is unsigned; it
    carries what does not depend on rounding (exceptions, shapes, special
    values, logarithms).  In the second, the module [F32], numbers are
    binary32 numbers with the IEEE operations of the Standard Library, with
    rounding, overflow and signed zeros; it carries what is said about the
    values the arithmetic returns. *)

From Stdlib Require Import Reals Lra Lia String Bool Arith ZArith List.
From Stdlib Require Floats.SpecFloat.
Import ListNotations.

Local Open Scope string_scope.
Local Open Scope R_scope.

(** ** Numbers *)

Inductive num : Type :=
| Fin (r : R)
| PInf
| NInf
| NaN.

Definition nneg (a : num) : num :=
  match a with
  | Fin x => Fin (- x)
  | PInf => NInf
  | NInf => PInf
  | NaN => NaN
  end.

Definition nadd (a b : num) : num :=
  match a, b with
  | NaN, _ | _, NaN => NaN
  | Fin x, Fin y => Fin (x + y)
  | PInf, NInf | NInf, PInf => NaN
  | PInf, _ | _, PInf => PInf
  | NInf, _ | _, NInf => NInf
  end.

Definition nsub (a b : num) : num :=
  match a, b with
  | NaN, _ | _, NaN => NaN
  | Fin x, Fin y => Fin (x - y)
  | PInf, PInf | NInf, NInf => NaN
  | PInf, _ | _, NInf => PInf
  | NInf, _ | _, PInf => NInf
  end.

(** Sign of a finite number, as the product and quotient rules for the
    infinities need it. *)
Inductive sign : Type := Neg | Zero | Pos.

Definition sign_of (x : R) : sign :=
  if Rlt_dec x 0 then Neg else if Rlt_dec 0 x then Pos else Zero.
Arguments sign_of : simpl never.

Definition nmul (a b : num) : num :=
  match a, b with
  | NaN, _ | _, NaN => NaN
  | Fin x, Fin y => Fin (x * y)
  | Fin x, PInf | PInf, Fin x =>
      match sign_of x with Neg => NInf | Zero => NaN | Pos => PInf end
  | Fin x, NInf | NInf, Fin x =>
      match sign_of x with Neg => PInf | Zero => NaN | Pos => NInf end
  | PInf, PInf | NInf, NInf => PInf
  | PInf, NInf | NInf, PInf => NInf
  end.

Definition ndiv (a b : num) : num :=
  match a, b with
  | NaN, _ | _, NaN => NaN
  | Fin x, Fin y =>
      match sign_of y with
      | Zero => match sign_of x with
                | Neg => NInf | Zero => NaN | Pos => PInf
                end
      | _ => Fin (x / y)
      end
  | Fin _, PInf | Fin _, NInf => Fin 0
  | PInf, Fin y => match sign_of y with Neg => NInf | _ => PInf end
  | NInf, Fin y => match sign_of y with Neg => PInf | _ => NInf end
  | PInf, PInf | PInf, NInf | NInf, PInf | NInf, NInf => NaN
  end.

Definition nsqrt (a : num) : num :=
  match a with
  | Fin x => match sign_of x with Neg => NaN | _ => Fin (sqrt x) end
  | PInf => PInf
  | NInf | NaN => NaN
  end.

Definition nlog (a : num) : num :=
  match a with
  | Fin x => match sign_of x with
             | Neg => NaN | Zero => NInf | Pos => Fin (ln x)
             end
  | PInf => PInf
  | NInf | NaN => NaN
  end.

(** [a < b] as JavaScript evaluates it: false as soon as one side is NaN. *)
Definition nlt (a b : num) : bool :=
  match a, b with
  | NaN, _ | _, NaN => false
  | Fin x, Fin y => if Rlt_dec x y then true else false
  | NInf, NInf | PInf, PInf => false
  | NInf, _ | _, PInf => true
  | _, NInf | PInf, _ => false
  end.

Definition is_nan (a : num) : bool :=
  match a with NaN => true | _ => false end.


(** ** Tensors

    A tensor of rank 0, 1 or 2, in its logical (nested) view.  A rank-2
    tensor is the list of its rows; its shape is read off the rows, so the
    rows of a tensor all have the length of the first one. *)

Inductive tensor : Type :=
| T0 (x : num)
| T1 (v : list num)
| T2 (rows : list (list num)).

Definition matrix : Type := list (list num).

Definition nrows (a : matrix) : nat := length a.
Definition ncols (a : matrix) : nat := length (hd [] a).
Definition entry (a : matrix) (i j : nat) : num := nth j (nth i a []) NaN.

Definition column (a : matrix) (j : nat) : list num :=
  map (fun r => nth j r NaN) a.
Definition columns (a : matrix) : list (list num) :=
  map (column a) (seq 0 (ncols a)).

Definition tabulate (r c : nat) (f : nat -> nat -> num) : matrix :=
  map (fun i => map (f i) (seq 0 c)) (seq 0 r).

Definition rank (t : tensor) : nat :=
  match t with T0 _ => 0 | T1 _ => 1 | T2 _ => 2 end.

Definition shape (t : tensor) : list nat :=
  match t with
  | T0 _ => []
  | T1 v => [length v]
  | T2 rows => [nrows rows; ncols rows]
  end.

(** Broadcasting aligns shapes on the right: a scalar is a 1x1 matrix and a
    vector a single row. *)
Definition as_matrix (t : tensor) : matrix :=
  match t with
  | T0 x => [[x]]
  | T1 v => [v]
  | T2 rows => rows
  end.

Definition of_matrix (rk : nat) (a : matrix) : tensor :=
  match rk with
  | O => T0 (entry a 0 0)
  | S O => T1 (nth 0 a [])
  | _ => T2 a
  end.

(** ** Values, exceptions and the error monad *)

Inductive value : Type :=
| VUndefined
| VNum (z : Z)            (* a numeric literal; the module writes integers only *)
| VArr (l : list Z)       (* an array literal of numbers, as in [slice([0], [1])] *)
| VTensor (t : tensor)
| VTf.                    (* the namespace object of the tensor library *)

(** A plain object, as an object literal builds it. *)
Definition object : Type := list (string * value).

Inductive exn : Type :=
| TypeError        (* calling what is not a function, reading a property of undefined *)
| ReferenceError   (* an identifier that is bound nowhere *)
| TfError.         (* an [Error] thrown by the library's argument checks *)

Inductive result (A : Type) : Type :=
| Ok (a : A)
| Throw (e : exn).
Arguments Ok {A} a.
Arguments Throw {A} e.

Definition bind {A B : Type} (m : result A) (k : A -> result B) : result B :=
  match m with
  | Ok a => k a
  | Throw e => Throw e
  end.

Notation "'let*' x ':=' m 'in' k" := (bind m (fun x => k))
  (at level 10, x name, m at level 100, k at level 200).

(** ** The tensor library *)

(** [convertToTensor]: a tensor is taken as it is, a number becomes a
    scalar, an array of numbers a vector; everything else is refused. *)
Definition convertToTensor (v : value) : result tensor :=
  match v with
  | VTensor t => Ok t
  | VNum z => Ok (T0 (Fin (IZR z)))
  | VArr l => Ok (T1 (map (fun z => Fin (IZR z)) l))
  | VUndefined | VTf => Throw TfError
  end.

Definition bdim (p q : nat) : option nat :=
  if (p =? q)%nat then Some p
  else if (p =? 1)%nat then Some q
  else if (q =? 1)%nat then Some p
  else None.

Definition bidx (p i : nat) : nat := if (p =? 1)%nat then 0%nat else i.

Definition broadcast (f : num -> num -> num) (a b : matrix) : result matrix :=
  match bdim (nrows a) (nrows b), bdim (ncols a) (ncols b) with
  | Some r, Some c =>
      Ok (tabulate r c (fun i j =>
            f (entry a (bidx (nrows a) i) (bidx (ncols a) j))
              (entry b (bidx (nrows b) i) (bidx (ncols b) j))))
  | _, _ => Throw TfError
  end.

(** [a.sub(b)], [a.div(b)]: the argument is converted, then the operation
    is applied elementwise on the broadcast shapes. *)
Definition binop (f : num -> num -> num) (t : tensor) (args : list value)
  : result value :=
  let* u := convertToTensor (hd VUndefined args) in
  let* c := broadcast f (as_matrix t) (as_matrix u) in
  Ok (VTensor (of_matrix (Nat.max (rank t) (rank u)) c)).

Definition tmap (f : num -> num) (t : tensor) : tensor :=
  match t with
  | T0 x => T0 (f x)
  | T1 v => T1 (map f v)
  | T2 rows => T2 (map (map f) rows)
  end.

Definition unop (f : num -> num) (t : tensor) (args : list value)
  : result value :=
  Ok (VTensor (tmap f t)).

(** The reductions, on the list of the values that are reduced together. *)
Definition reduce_sum (l : list num) : num := fold_left nadd l (Fin 0).

(** [mean] divides every element by the number of reduced elements and
    sums the quotients. *)
Definition reduce_mean (l : list num) : num :=
  reduce_sum (map (fun x => ndiv x (Fin (INR (length l)))) l).

Definition reduce_min (l : list num) : num :=
  match l with
  | [] => NaN
  | x :: _ => fold_left (fun mn v => if is_nan v || nlt v mn then v else mn) l x
  end.

Definition reduce_max (l : list num) : num :=
  match l with
  | [] => NaN
  | x :: _ => fold_left (fun mx v => if is_nan v || nlt mx v then v else mx) l x
  end.

(** [parseAxisParam]: every axis lies in [-rank, rank); a negative axis
    counts from the last one. *)
Definition parseAxisParam (rk : nat) (axes : list Z) : result (list nat) :=
  if forallb (fun a => (- Z.of_nat rk <=? a)%Z && (a <? Z.of_nat rk)%Z) axes
  then Ok (map (fun a => Z.to_nat (if (a <? 0)%Z then Z.of_nat rk + a else a)%Z) axes)
  else Throw TfError.

Definition has_axis (k : nat) (axes : list nat) : bool :=
  existsb (Nat.eqb k) axes.

Definition reduce_axes (g : list num -> num) (t : tensor) (axes : list nat)
  : tensor :=
  match t with
  | T0 x => T0 (g [x])
  | T1 v => if has_axis 0 axes then T0 (g v) else T1 (map (fun x => g [x]) v)
  | T2 rows =>
      match has_axis 0 axes, has_axis 1 axes with
      | true, true => T0 (g (concat rows))
      | true, false => T1 (map g (columns rows))
      | false, true => T1 (map g rows)
      | false, false => T2 (map (map (fun x => g [x])) rows)
      end
  end.

(** [a.mean(axis)], [a.min(axis)], [a.max(axis)]; without an axis all
    elements are reduced. *)
Definition reduce (g : list num -> num) (t : tensor) (args : list value)
  : result value :=
  match hd VUndefined args with
  | VUndefined => Ok (VTensor (T0 (g (concat (as_matrix t)))))
  | VNum z =>
      let* axes := parseAxisParam (rank t) [z] in
      Ok (VTensor (reduce_axes g t axes))
  | VArr l =>
      let* axes := parseAxisParam (rank t) l in
      Ok (VTensor (reduce_axes g t axes))
  | VTensor _ | VTf => Throw TfError
  end.

(** [a.slice(begin, size)]: [begin] and [size] are padded to the rank
    (with 0 and with -1, "the rest"); the slice must lie inside the
    tensor. *)
Definition slice_param (v : value) : option (list Z) :=
  match v with
  | VNum z => Some [z]
  | VArr l => Some l
  | VUndefined => Some []
  | VTensor _ | VTf => None
  end.

Definition slice_range (len : nat) (b s : Z) : result (nat * nat) :=
  if (b <? 0)%Z then Throw TfError
  else if (s <? -1)%Z then Throw TfError
  else
    let s' := if (s <? 0)%Z then (Z.of_nat len - b)%Z else s in
    if (b + s' <=? Z.of_nat len)%Z && (0 <=? s')%Z
    then Ok (Z.to_nat b, Z.to_nat s')
    else Throw TfError.

Definition cut {A : Type} (r : nat * nat) (l : list A) : list A :=
  firstn (snd r) (skipn (fst r) l).

Definition slice (t : tensor) (args : list value) : result value :=
  match slice_param (nth 0 args VUndefined),
        slice_param (nth 1 args VUndefined) with
  | Some b, Some s =>
      match t with
      | T0 _ => Throw TfError
      | T1 v =>
          if (length b <=? 1)%nat && (length s <=? 1)%nat then
            let* r := slice_range (length v) (nth 0 b 0%Z) (nth 0 s (-1)%Z) in
            Ok (VTensor (T1 (cut r v)))
          else Throw TfError
      | T2 rows =>
          if (length b <=? 2)%nat && (length s <=? 2)%nat then
            let* r0 := slice_range (nrows rows) (nth 0 b 0%Z) (nth 0 s (-1)%Z) in
            let* r1 := slice_range (ncols rows) (nth 1 b 0%Z) (nth 1 s (-1)%Z) in
            Ok (VTensor (T2 (map (cut r1) (cut r0 rows))))
          else Throw TfError
      end
  | _, _ => Throw TfError
  end.

(** The methods of a tensor that the module calls and that the library's
    tensor class provides.  The class has no method [median] and no
    method [quartile]. *)
Definition tensor_method (name : string)
  : option (tensor -> list value -> result value) :=
  if name =? "mean" then Some (reduce reduce_mean)
  else if name =? "min" then Some (reduce reduce_min)
  else if name =? "max" then Some (reduce reduce_max)
  else if name =? "sub" then Some (binop nsub)
  else if name =? "div" then Some (binop ndiv)
  else if name =? "square" then Some (unop (fun x => nmul x x))
  else if name =? "sqrt" then Some (unop nsqrt)
  else if name =? "log" then Some (unop nlog)
  else if name =? "slice" then Some slice
  else None.

(** [tf.log(x)]: the function of the namespace converts its argument. *)
Definition tf_log (args : list value) : result value :=
  let* t := convertToTensor (hd VUndefined args) in
  Ok (VTensor (tmap nlog t)).

(** [recv.name(args)]: the property is looked up on the receiver and
    called; a missing property is [undefined], and calling it throws. *)
Definition call_method (recv : value) (name : string) (args : list value)
  : result value :=
  match recv with
  | VTensor t =>
      match tensor_method name with
      | Some m => m t args
      | None => Throw TypeError
      end
  | VTf => if name =? "log" then tf_log args else Throw TypeError
  | VUndefined | VNum _ | VArr _ => Throw TypeError
  end.

(** [const { k } = o]: a key the object does not have gives [undefined]. *)
Fixpoint get_prop (o : object) (k : string) : value :=
  match o with
  | [] => VUndefined
  | (k', v) :: o' => if k' =? k then v else get_prop o' k
  end.

(** A free identifier of the module is resolved in the global scope. *)
Definition lookup_global (global : string -> option value) (x : string)
  : result value :=
  match global x with
  | Some v => Ok v
  | None => Throw ReferenceError
  end.

(** ** The module [boston-housing/normalization.js] *)

(** [determineMeanAndStddev(data)] *)
Definition determineMeanAndStddev (data : value) : result object :=
  let* dataMean := call_method data "mean" [VNum 0] in
  let* diffFromMean := call_method data "sub" [dataMean] in
  let* squaredDiffFromMean := call_method diffFromMean "square" [] in
  let* variance := call_method squaredDiffFromMean "mean" [VNum 0] in
  let* dataStd := call_method variance "sqrt" [] in
  Ok [("dataMean", dataMean); ("dataStd", dataStd)].

(** [normalizeTensor(data, dataMean, dataStd)] *)
Definition normalizeTensor (data dataMean dataStd : value) : result value :=
  let* centred := call_method data "sub" [dataMean] in
  call_method centred "div" [dataStd].

(** [normalizeTensorWithZScore(data)]: the statistics are taken out of the
    returned object under the keys [mean] and [std]. *)
Definition normalizeTensorWithZScore (data : value) : result value :=
  let* stats := determineMeanAndStddev data in
  let mean := get_prop stats "mean" in
  let std := get_prop stats "std" in
  normalizeTensor data mean std.

(** [normalizeTensorWithMinMax(data)] *)
Definition normalizeTensorWithMinMax (data : value) : result value :=
  let* min := call_method data "min" [VNum 0] in
  let* max := call_method data "max" [VNum 0] in
  let* centred := call_method data "sub" [min] in
  let* range := call_method max "sub" [min] in
  call_method centred "div" [range].

(** [normalizeTensorWithLogScaling(data)]: [tf] is a free identifier of the
    module, which imports nothing; [global] is the global scope it is
    resolved in.  The receiver [data.log()] is evaluated before the
    argument [tf.log(10)]. *)
Definition normalizeTensorWithLogScaling (global : string -> option value)
  (data : value) : result value :=
  let* logs := call_method data "log" [] in
  let* tf := lookup_global global "tf" in
  let* log10 := call_method tf "log" [VNum 10] in
  call_method logs "div" [log10].

(** [normalizeTensorWithRobustScaling(data)] *)
Definition normalizeTensorWithRobustScaling (data : value) : result value :=
  let* median := call_method data "median" [VNum 0] in
  let* quartiles := call_method data "quartile" [VNum 0] in
  let* min := call_method quartiles "slice" [VArr [0%Z]; VArr [1%Z]] in
  let* max := call_method quartiles "slice" [VArr [2%Z]; VArr [3%Z]] in
  let* centred := call_method data "sub" [median] in
  let* iqr := call_method max "sub" [min] in
  call_method centred "div" [iqr].

(** The global scope of a host that loaded the tensor library under the
    name [tf], and the one of a host that did not. *)
Definition global_with_tf (x : string) : option value :=
  if x =? "tf" then Some VTf else None.

Definition global_without_tf (x : string) : option value := None.

(** ** Vocabulary of the specification

    A matrix of finite numbers is a list of rows of reals; the statistics
    of a column are stated on the list of its entries. *)

Definition rmatrix : Type := list (list R).

Definition has_shape {A : Type} (m n : nat) (a : list (list A)) : Prop :=
  length a = m /\ Forall (fun r => length r = n) a.

Definition rentry (M : rmatrix) (i j : nat) : R := nth j (nth i M []) 0.

Definition rcol (M : rmatrix) (j : nat) : list R :=
  map (fun r => nth j r 0) M.

Definition inject (M : rmatrix) : matrix := map (map Fin) M.

Definition tensor_of (M : rmatrix) : value := VTensor (T2 (inject M)).

Definition vector_of (v : list R) : value := VTensor (T1 (map Fin v)).

Definition rsum (l : list R) : R := fold_right Rplus 0 l.

Definition average (l : list R) : R := rsum l / INR (length l).

(** Population standard deviation of a list around its own average. *)
Definition std_dev (l : list R) : R :=
  sqrt (average (map (fun x => (x - average l) * (x - average l)) l)).

Definition is_min (l : list R) (x : R) : Prop :=
  In x l /\ forall y, In y l -> x <= y.

Definition is_max (l : list R) (x : R) : Prop :=
  In x l /\ forall y, In y l -> y <= x.

Definition constant (l : list R) : Prop :=
  forall x y, In x l -> In y l -> x = y.

(** A value that is not a finite number: NaN or an infinity. *)
Definition special (a : num) : Prop :=
  match a with Fin _ => False | _ => True end.

(** The table of the finite numbers [g i j]. *)
Definition rtab (r c : nat) (g : nat -> nat -> R) : rmatrix :=
  map (fun i => map (g i) (seq 0 c)) (seq 0 r).

(** [normalizeWithZScore] in the words of the specification: the statistics
    of the matrix are computed by [determineMeanAndStddev] and handed to
    [normalizeTensor]. *)
Definition spec_normalizeWithZScore (data : value) : result value :=
  let* stats := determineMeanAndStddev data in
  normalizeTensor data (get_prop stats "dataMean") (get_prop stats "dataStd").

(** ** The same library on binary32 numbers

    The tensors of the library hold IEEE 754 binary32 numbers.  The module
    [F32] gives the operations that [determineMeanAndStddev],
    [normalizeTensor] and [normalizeTensorWithMinMax] call on such
    tensors, with rounding, overflow and signed zeros: the elementwise
    operations round to binary32, and a sum is accumulated in binary64
    and rounded to binary32 when it is stored. *)

Module F32.

Definition prec : Z := 24.
Definition emax : Z := 128.

Definition f32 : Type := SpecFloat.spec_float.

Definition fsub : f32 -> f32 -> f32 := SpecFloat.SFsub prec emax.
Definition fmul : f32 -> f32 -> f32 := SpecFloat.SFmul prec emax.
Definition fdiv : f32 -> f32 -> f32 := SpecFloat.SFdiv prec emax.
Definition fsqrt : f32 -> f32 := SpecFloat.SFsqrt prec emax.
Definition flt : f32 -> f32 -> bool := SpecFloat.SFltb.

Definition is_nan (x : f32) : bool :=
  match x with SpecFloat.S754_nan => true | _ => false end.

(** An integer as a binary32 number. *)
Definition of_Z (z : Z) : f32 := SpecFloat.binary_normalize prec emax z 0 false.

(** A binary64 number stored into a binary32 array. *)
Definition fround (x : SpecFloat.spec_float) : f32 :=
  match x with
  | SpecFloat.S754_finite s m e =>
      SpecFloat.binary_normalize prec emax (SpecFloat.cond_Zopp s (Zpos m)) e s
  | _ => x
  end.

Inductive tensor : Type :=
| T0 (x : f32)
| T1 (v : list f32)
| T2 (rows : list (list f32)).

Definition matrix : Type := list (list f32).

Definition nrows (a : matrix) : nat := length a.
Definition ncols (a : matrix) : nat := length (hd [] a).
Definition entry (a : matrix) (i j : nat) : f32 :=
  nth j (nth i a []) SpecFloat.S754_nan.

Definition column (a : matrix) (j : nat) : list f32 :=
  map (fun r => nth j r SpecFloat.S754_nan) a.
Definition columns (a : matrix) : list (list f32) :=
  map (column a) (seq 0 (ncols a)).

Definition tabulate (r c : nat) (f : nat -> nat -> f32) : matrix :=
  map (fun i => map (f i) (seq 0 c)) (seq 0 r).

Definition rank (t : tensor) : nat :=
  match t with T0 _ => 0%nat | T1 _ => 1%nat | T2 _ => 2%nat end.

Definition as_matrix (t : tensor) : matrix :=
  match t with
  | T0 x => [[x]]
  | T1 v => [v]
  | T2 rows => rows
  end.

Definition of_matrix (rk : nat) (a : matrix) : tensor :=
  match rk with
  | O => T0 (entry a 0 0)
  | S O => T1 (nth 0 a [])
  | _ => T2 a
  end.

Definition broadcast (f : f32 -> f32 -> f32) (a b : matrix) : result matrix :=
  match bdim (nrows a) (nrows b), bdim (ncols a) (ncols b) with
  | Some r, Some c =>
      Ok (tabulate r c (fun i j =>
            f (entry a (bidx (nrows a) i) (bidx (ncols a) j))
              (entry b (bidx (nrows b) i) (bidx (ncols b) j))))
  | _, _ => Throw TfError
  end.

Definition binop (f : f32 -> f32 -> f32) (t u : tensor) : result tensor :=
  let* c := broadcast f (as_matrix t) (as_matrix u) in
  Ok (of_matrix (Nat.max (rank t) (rank u)) c).

(** [a.sub(b)], [a.div(b)], [a.square()], [a.sqrt()] *)
Definition sub : tensor -> tensor -> result tensor := binop fsub.
Definition div : tensor -> tensor -> result tensor := binop fdiv.

Definition tmap (f : f32 -> f32) (t : tensor) : tensor :=
  match t with
  | T0 x => T0 (f x)
  | T1 v => T1 (map f v)
  | T2 rows => T2 (map (map f) rows)
  end.

Definition square (t : tensor) : result tensor := Ok (tmap (fun x => fmul x x) t).
Definition sqrt (t : tensor) : result tensor := Ok (tmap fsqrt t).

(** The sum runs in binary64 and is rounded when stored. *)
Definition reduce_sum (l : list f32) : f32 :=
  fround (fold_left (SpecFloat.SFadd 53 1024) l (SpecFloat.S754_zero false)).

Definition reduce_mean (l : list f32) : f32 :=
  reduce_sum (map (fun x => fdiv x (of_Z (Z.of_nat (length l)))) l).

Definition reduce_min (l : list f32) : f32 :=
  match l with
  | [] => SpecFloat.S754_nan
  | x :: _ => fold_left (fun mn v => if is_nan v || flt v mn then v else mn) l x
  end.

Definition reduce_max (l : list f32) : f32 :=
  match l with
  | [] => SpecFloat.S754_nan
  | x :: _ => fold_left (fun mx v => if is_nan v || flt mx v then v else mx) l x
  end.

(** A reduction along axis 0, as in [a.mean(0)], [a.min(0)], [a.max(0)]. *)
Definition reduce0 (g : list f32 -> f32) (t : tensor) : result tensor :=
  match t with
  | T0 _ => Throw TfError
  | T1 v => Ok (T0 (g v))
  | T2 rows => Ok (T1 (map g (columns rows)))
  end.

(** [determineMeanAndStddev(data)] *)
Definition determineMeanAndStddev (data : tensor)
  : result (list (string * tensor)) :=
  let* dataMean := reduce0 reduce_mean data in
  let* diffFromMean := sub data dataMean in
  let* squaredDiffFromMean := square diffFromMean in
  let* variance := reduce0 reduce_mean squaredDiffFromMean in
  let* dataStd := sqrt variance in
  Ok [("dataMean", dataMean); ("dataStd", dataStd)].

(** [normalizeTensor(data, dataMean, dataStd)] *)
Definition normalizeTensor (data dataMean dataStd : tensor) : result tensor :=
  let* centred := sub data dataMean in
  div centred dataStd.

(** [normalizeTensorWithMinMax(data)] *)
Definition normalizeTensorWithMinMax (data : tensor) : result tensor :=
  let* min := reduce0 reduce_min data in
  let* max := reduce0 reduce_max data in
  let* centred := sub data min in
  let* range := sub max min in
  div centred range.

End F32.


(** Some binary32 numbers: -1/2, 1/2, 2^127 and its opposite. *)
Definition f32_minus_half : F32.f32 := SpecFloat.S754_finite true 8388608 (-24).

(** * Properties *)

(** ** Arithmetic on finite numbers *)

Lemma sign_of_pos x : 0 < x -> sign_of x = Pos.
Proof.
  intros H. unfold sign_of.
  destruct (Rlt_dec x 0); [lra|]. destruct (Rlt_dec 0 x); [reflexivity|lra].
Qed.

Lemma sign_of_neg x : x < 0 -> sign_of x = Neg.
Proof.
  intros H. unfold sign_of. destruct (Rlt_dec x 0); [reflexivity|lra].
Qed.

Lemma sign_of_zero : sign_of 0 = Zero.
Proof.
  unfold sign_of.
  destruct (Rlt_dec 0 0); [lra|]. reflexivity.
Qed.

Lemma sign_of_cases x :
  (x < 0 /\ sign_of x = Neg) \/ (x = 0 /\ sign_of x = Zero) \/
  (0 < x /\ sign_of x = Pos).
Proof.
  destruct (Rtotal_order x 0) as [H|[H|H]].
  - left. split; [assumption|]. now apply sign_of_neg.
  - right; left. subst. split; [reflexivity|]. apply sign_of_zero.
  - right; right. split; [lra|]. apply sign_of_pos. lra.
Qed.

Lemma ndiv_fin x y : y <> 0 -> ndiv (Fin x) (Fin y) = Fin (x / y).
Proof.
  intros H. simpl.
  destruct (sign_of_cases y) as [[_ E]|[[E _]|[_ E]]];
    [now rewrite E | contradiction | now rewrite E].
Qed.

Lemma ndiv_zero_zero : ndiv (Fin 0) (Fin 0) = NaN.
Proof. unfold ndiv. now rewrite sign_of_zero. Qed.

Lemma ndiv_by_zero_special a : special (ndiv a (Fin 0)).
Proof.
  destruct a; unfold ndiv; rewrite ?sign_of_zero; try exact I.
  destruct (sign_of r); exact I.
Qed.

Lemma nsqrt_fin x : 0 <= x -> nsqrt (Fin x) = Fin (sqrt x).
Proof.
  intros H. simpl.
  destruct (sign_of_cases x) as [[L _]|[[_ E]|[_ E]]];
    [lra | now rewrite E | now rewrite E].
Qed.

Lemma nlog_fin x : 0 < x -> nlog (Fin x) = Fin (ln x).
Proof. intros H. simpl. now rewrite sign_of_pos. Qed.

Lemma nlt_fin x y : nlt (Fin x) (Fin y) = true <-> x < y.
Proof.
  simpl. destruct (Rlt_dec x y); split; intros; try assumption;
    try reflexivity; try discriminate; contradiction.
Qed.

(** ** Lists and tables *)

Lemma tabulate_shape r c f : has_shape r c (tabulate r c f).
Proof.
  unfold has_shape, tabulate. split.
  - now rewrite length_map, length_seq.
  - apply Forall_forall. intros x Hx. apply in_map_iff in Hx.
    destruct Hx as [i [<- _]]. now rewrite length_map, length_seq.
Qed.

Lemma entry_tabulate r c f i j :
  (i < r)%nat -> (j < c)%nat -> entry (tabulate r c f) i j = f i j.
Proof.
  intros Hi Hj. unfold entry, tabulate.
  rewrite (nth_indep _ [] (map (f 0%nat) (seq 0 c)))
    by now rewrite length_map, length_seq.
  rewrite (map_nth (fun i => map (f i) (seq 0 c))), seq_nth by assumption.
  rewrite (nth_indep _ NaN (f i 0%nat)) by now rewrite length_map, length_seq.
  rewrite (map_nth (f i)), seq_nth by assumption. reflexivity.
Qed.

Lemma tabulate_ext r c f g :
  (forall i j, (i < r)%nat -> (j < c)%nat -> f i j = g i j) ->
  tabulate r c f = tabulate r c g.
Proof.
  intros H. unfold tabulate. apply map_ext_in. intros i Hi.
  apply map_ext_in. intros j Hj. apply in_seq in Hi, Hj. apply H; lia.
Qed.

Lemma list_as_map {A : Type} (d : A) (l : list A) :
  l = map (fun i => nth i l d) (seq 0 (length l)).
Proof.
  apply (nth_ext _ _ d d).
  - now rewrite length_map, length_seq.
  - intros i Hi.
    rewrite (nth_indep (map _ _) d (nth 0 l d))
      by now rewrite length_map, length_seq.
    rewrite (map_nth (fun i => nth i l d)), seq_nth by assumption.
    reflexivity.
Qed.

Lemma has_shape_row {A : Type} (m n : nat) (a : list (list A)) i :
  has_shape m n a -> (i < m)%nat -> length (nth i a []) = n.
Proof.
  intros [Hm Hn] Hi. rewrite Forall_forall in Hn. apply Hn, nth_In. lia.
Qed.

Lemma has_shape_ncols m n (a : matrix) :
  has_shape m n a -> (1 <= m)%nat -> ncols a = n.
Proof.
  intros H Hm. unfold ncols.
  replace (hd [] a) with (nth 0 a []) by (destruct a; reflexivity).
  apply (has_shape_row m); [assumption | lia].
Qed.

Lemma has_shape_map {A B : Type} (f : A -> B) m n (a : list (list A)) :
  has_shape m n a -> has_shape m n (map (map f) a).
Proof.
  intros [Hm Hn]. split.
  - now rewrite length_map.
  - apply Forall_forall. intros r Hr. apply in_map_iff in Hr.
    destruct Hr as [r' [<- Hr']]. rewrite length_map.
    rewrite Forall_forall in Hn. now apply Hn.
Qed.

Lemma tabulate_entry m n (a : matrix) :
  has_shape m n a -> a = tabulate m n (entry a).
Proof.
  intros H. unfold tabulate.
  rewrite (list_as_map [] a) at 1. destruct H as [Hm Hn]. rewrite Hm.
  apply map_ext_in. intros i Hi. apply in_seq in Hi.
  rewrite (list_as_map NaN (nth i a [])) at 1.
  rewrite (has_shape_row m n a i) by (try split; try assumption; lia).
  reflexivity.
Qed.

Lemma inject_shape m n (M : rmatrix) :
  has_shape m n M -> has_shape m n (inject M).
Proof. apply has_shape_map. Qed.

Lemma entry_inject m n (M : rmatrix) i j :
  has_shape m n M -> (i < m)%nat -> (j < n)%nat ->
  entry (inject M) i j = Fin (rentry M i j).
Proof.
  intros H Hi Hj. unfold entry, rentry, inject.
  destruct H as [Hm Hn].
  rewrite (nth_indep _ [] (map Fin [])) by (rewrite length_map; lia).
  rewrite (map_nth (map Fin)).
  rewrite (nth_indep _ NaN (Fin 0)).
  - now rewrite (map_nth Fin).
  - rewrite length_map, (has_shape_row m n M i); try split; assumption.
Qed.

Lemma inject_tabulate m n (M : rmatrix) :
  has_shape m n M ->
  inject M = tabulate m n (fun i j => Fin (rentry M i j)).
Proof.
  intros H. rewrite (tabulate_entry m n (inject M)) by now apply inject_shape.
  apply tabulate_ext. intros i j Hi Hj. now apply (entry_inject m n).
Qed.

Lemma rcol_seq m n (M : rmatrix) j :
  has_shape m n M -> rcol M j = map (fun i => rentry M i j) (seq 0 m).
Proof.
  intros [Hm _]. unfold rcol, rentry.
  rewrite (list_as_map [] M) at 1. rewrite map_map, Hm. reflexivity.
Qed.

Lemma ncols_tabulate r c f : (1 <= r)%nat -> ncols (tabulate r c f) = c.
Proof.
  intros Hr. apply (has_shape_ncols r); [apply tabulate_shape | assumption].
Qed.

Lemma columns_tabulate r c f :
  (1 <= r)%nat ->
  columns (tabulate r c f) =
  map (fun j => map (fun i => f i j) (seq 0 r)) (seq 0 c).
Proof.
  intros Hr. unfold columns. rewrite ncols_tabulate by assumption.
  apply map_ext_in. intros j Hj. apply in_seq in Hj.
  unfold column, tabulate. rewrite map_map. apply map_ext_in.
  intros i Hi.
  rewrite (nth_indep _ NaN (f i 0%nat)) by (rewrite length_map, length_seq; lia).
  rewrite (map_nth (f i)), seq_nth by lia. reflexivity.
Qed.

(** ** Broadcasting *)

Lemma bidx_lt p i : (i < p)%nat -> bidx p i = i.
Proof.
  intros H. unfold bidx. destruct (Nat.eqb_spec p 1); [lia | reflexivity].
Qed.

Lemma bdim_refl p : bdim p p = Some p.
Proof. unfold bdim. now rewrite Nat.eqb_refl. Qed.

Lemma bdim_one_r p : bdim p 1 = Some p.
Proof.
  unfold bdim. destruct (Nat.eqb_spec p 1); [now subst | reflexivity].
Qed.

Lemma broadcast_row f (a : matrix) (v : list num) m n :
  has_shape m n a -> (1 <= m)%nat -> length v = n ->
  broadcast f a [v] =
  Ok (tabulate m n (fun i j => f (entry a i j) (nth j v NaN))).
Proof.
  intros H Hm Hv. unfold broadcast.
  rewrite (has_shape_ncols m n a H Hm).
  replace (nrows a) with m by (symmetry; apply H).
  replace (nrows [v]) with 1%nat by reflexivity.
  replace (ncols [v]) with n by (symmetry; exact Hv).
  rewrite bdim_one_r, bdim_refl. f_equal. apply tabulate_ext.
  intros i j Hi Hj. rewrite !bidx_lt by assumption. reflexivity.
Qed.

Lemma broadcast_scalar f (a : matrix) (x : num) m n :
  has_shape m n a -> (1 <= m)%nat ->
  broadcast f a [[x]] = Ok (tabulate m n (fun i j => f (entry a i j) x)).
Proof.
  intros H Hm. unfold broadcast.
  rewrite (has_shape_ncols m n a H Hm).
  replace (nrows a) with m by (symmetry; apply H).
  replace (nrows [[x]]) with 1%nat by reflexivity.
  replace (ncols [[x]]) with 1%nat by reflexivity.
  rewrite !bdim_one_r. f_equal. apply tabulate_ext.
  intros i j Hi Hj. rewrite !bidx_lt by assumption. reflexivity.
Qed.

Lemma broadcast_vectors f (u v : list num) n :
  length u = n -> length v = n ->
  broadcast f [u] [v] =
  Ok [map (fun j => f (nth j u NaN) (nth j v NaN)) (seq 0 n)].
Proof.
  intros Hu Hv. unfold broadcast.
  replace (nrows [u]) with 1%nat by reflexivity.
  replace (nrows [v]) with 1%nat by reflexivity.
  replace (ncols [u]) with n by (symmetry; exact Hu).
  replace (ncols [v]) with n by (symmetry; exact Hv).
  rewrite !bdim_refl. f_equal. unfold tabulate. simpl. f_equal.
  apply map_ext_in. intros j Hj. apply in_seq in Hj.
  rewrite !bidx_lt by lia. reflexivity.
Qed.

(** ** Method calls *)

Lemma call_reduce0 g name rows :
  tensor_method name = Some (reduce g) ->
  call_method (VTensor (T2 rows)) name [VNum 0] =
  Ok (VTensor (T1 (map g (columns rows)))).
Proof. intros H. unfold call_method. rewrite H. reflexivity. Qed.

Lemma call_sub_row (a : matrix) (v : list num) m n :
  has_shape m n a -> (1 <= m)%nat -> length v = n ->
  call_method (VTensor (T2 a)) "sub" [VTensor (T1 v)] =
  Ok (VTensor (T2 (tabulate m n
        (fun i j => nsub (entry a i j) (nth j v NaN))))).
Proof.
  intros H Hm Hv. change (call_method _ _ _) with
    (let* c := broadcast nsub a [v] in Ok (VTensor (T2 c))).
  now rewrite (broadcast_row nsub a v m n).
Qed.

Lemma call_div_row (a : matrix) (v : list num) m n :
  has_shape m n a -> (1 <= m)%nat -> length v = n ->
  call_method (VTensor (T2 a)) "div" [VTensor (T1 v)] =
  Ok (VTensor (T2 (tabulate m n
        (fun i j => ndiv (entry a i j) (nth j v NaN))))).
Proof.
  intros H Hm Hv. change (call_method _ _ _) with
    (let* c := broadcast ndiv a [v] in Ok (VTensor (T2 c))).
  now rewrite (broadcast_row ndiv a v m n).
Qed.

Lemma call_div_scalar (a : matrix) (x : num) m n :
  has_shape m n a -> (1 <= m)%nat ->
  call_method (VTensor (T2 a)) "div" [VTensor (T0 x)] =
  Ok (VTensor (T2 (tabulate m n (fun i j => ndiv (entry a i j) x)))).
Proof.
  intros H Hm. change (call_method _ _ _) with
    (let* c := broadcast ndiv a [[x]] in Ok (VTensor (T2 c))).
  now rewrite (broadcast_scalar ndiv a x m n).
Qed.

Lemma call_sub_vectors (u v : list num) n :
  length u = n -> length v = n ->
  call_method (VTensor (T1 u)) "sub" [VTensor (T1 v)] =
  Ok (VTensor (T1 (map (fun j => nsub (nth j u NaN) (nth j v NaN))
                       (seq 0 n)))).
Proof.
  intros Hu Hv. change (call_method _ _ _) with
    (let* c := broadcast nsub [u] [v] in Ok (VTensor (T1 (nth 0 c [])))).
  now rewrite (broadcast_vectors nsub u v n).
Qed.

Lemma call_sub_undefined data :
  exists e, call_method data "sub" [VUndefined] = Throw e.
Proof. destruct data; eexists; reflexivity. Qed.

(** ** Reductions of finite columns *)

Lemma fold_nadd_fin l a :
  fold_left nadd (map Fin l) (Fin a) = Fin (a + rsum l).
Proof.
  revert a. induction l as [|x l IH]; intros a; simpl.
  - f_equal. lra.
  - rewrite IH. f_equal. lra.
Qed.

Lemma reduce_sum_fin l : reduce_sum (map Fin l) = Fin (rsum l).
Proof. unfold reduce_sum. rewrite fold_nadd_fin. f_equal. lra. Qed.

Lemma rsum_scale c l : rsum (map (fun x => x / c) l) = rsum l / c.
Proof.
  induction l as [|x l IH]; simpl.
  - unfold Rdiv. lra.
  - rewrite IH. unfold Rdiv. lra.
Qed.

Lemma INR_length_pos {A : Type} (l : list A) : l <> [] -> 0 < INR (length l).
Proof.
  intros H. destruct l as [|x l]; [contradiction|].
  apply lt_0_INR. simpl. lia.
Qed.

Lemma reduce_mean_fin l :
  l <> [] -> reduce_mean (map Fin l) = Fin (average l).
Proof.
  intros H. unfold reduce_mean, average. rewrite length_map, map_map.
  pose proof (INR_length_pos l H) as Hp.
  rewrite (map_ext _ (fun x => Fin (x / INR (length l)))).
  - rewrite <- (map_map (fun x => x / INR (length l)) Fin).
    rewrite reduce_sum_fin, rsum_scale. reflexivity.
  - intros x. apply ndiv_fin. lra.
Qed.

Lemma fold_min_fin l a :
  exists b, fold_left (fun mn v => if is_nan v || nlt v mn then v else mn)
              (map Fin l) (Fin a) = Fin b /\
            (b = a \/ In b l) /\ b <= a /\ forall y, In y l -> b <= y.
Proof.
  revert a. induction l as [|x l IH]; intros a.
  - exists a. simpl. repeat split; [now left | lra | contradiction].
  - cbn [map fold_left is_nan orb].
    destruct (nlt (Fin x) (Fin a)) eqn:E.
    + apply nlt_fin in E. destruct (IH x) as [b [Hb [Hin [Hle Hlow]]]].
      exists b. split; [exact Hb|]. repeat split.
      * right. destruct Hin as [->|Hin]; [now left | now right].
      * lra.
      * intros y [<-|Hy]; [exact Hle | now apply Hlow].
    + assert (a <= x) as Hax.
      { destruct (Rlt_dec x a) as [L|L]; [|lra].
        apply nlt_fin in L. congruence. }
      destruct (IH a) as [b [Hb [Hin [Hle Hlow]]]].
      exists b. split; [exact Hb|]. repeat split.
      * destruct Hin as [->|Hin]; [now left | right; now right].
      * exact Hle.
      * intros y [<-|Hy]; [lra | now apply Hlow].
Qed.

Lemma fold_max_fin l a :
  exists b, fold_left (fun mx v => if is_nan v || nlt mx v then v else mx)
              (map Fin l) (Fin a) = Fin b /\
            (b = a \/ In b l) /\ a <= b /\ forall y, In y l -> y <= b.
Proof.
  revert a. induction l as [|x l IH]; intros a.
  - exists a. simpl. repeat split; [now left | lra | contradiction].
  - cbn [map fold_left is_nan orb].
    destruct (nlt (Fin a) (Fin x)) eqn:E.
    + apply nlt_fin in E. destruct (IH x) as [b [Hb [Hin [Hle Hup]]]].
      exists b. split; [exact Hb|]. repeat split.
      * right. destruct Hin as [->|Hin]; [now left | now right].
      * lra.
      * intros y [<-|Hy]; [exact Hle | now apply Hup].
    + assert (x <= a) as Hax.
      { destruct (Rlt_dec a x) as [L|L]; [|lra].
        apply nlt_fin in L. congruence. }
      destruct (IH a) as [b [Hb [Hin [Hle Hup]]]].
      exists b. split; [exact Hb|]. repeat split.
      * destruct Hin as [->|Hin]; [now left | right; now right].
      * exact Hle.
      * intros y [<-|Hy]; [lra | now apply Hup].
Qed.

Lemma reduce_min_fin l :
  l <> [] -> exists x, reduce_min (map Fin l) = Fin x /\ is_min l x.
Proof.
  intros H. destruct l as [|a l]; [contradiction|].
  destruct (fold_min_fin (a :: l) a) as [b [Hb [Hin [_ Hlow]]]].
  exists b. split; [exact Hb|]. split; [|exact Hlow].
  destruct Hin as [->|Hin]; [now left | exact Hin].
Qed.

Lemma reduce_max_fin l :
  l <> [] -> exists x, reduce_max (map Fin l) = Fin x /\ is_max l x.
Proof.
  intros H. destruct l as [|a l]; [contradiction|].
  destruct (fold_max_fin (a :: l) a) as [b [Hb [Hin [_ Hup]]]].
  exists b. split; [exact Hb|]. split; [|exact Hup].
  destruct Hin as [->|Hin]; [now left | exact Hin].
Qed.

(** ** Tables of finite numbers *)

Lemma tabulate_fin r c g :
  tabulate r c (fun i j => Fin (g i j)) = inject (rtab r c g).
Proof.
  unfold tabulate, inject, rtab. rewrite map_map.
  apply map_ext. intros i. now rewrite map_map.
Qed.

Lemma map_tabulate h r c f :
  map (map h) (tabulate r c f) = tabulate r c (fun i j => h (f i j)).
Proof.
  unfold tabulate. rewrite map_map. apply map_ext. intros i.
  now rewrite map_map.
Qed.

Lemma rcol_nonempty m n (M : rmatrix) j :
  has_shape m n M -> (1 <= m)%nat -> rcol M j <> [].
Proof.
  intros [Hm _] H1 E. apply (f_equal (@length R)) in E.
  unfold rcol in E. rewrite length_map in E. simpl in E. lia.
Qed.

Lemma columns_inject m n (M : rmatrix) :
  has_shape m n M -> (1 <= m)%nat ->
  columns (inject M) = map (fun j => map Fin (rcol M j)) (seq 0 n).
Proof.
  intros H Hm. rewrite (inject_tabulate m n M H).
  rewrite columns_tabulate by assumption. apply map_ext. intros j.
  rewrite (rcol_seq m n M j H). now rewrite map_map.
Qed.

Lemma nth_map_seq {A : Type} (f : nat -> A) n j d :
  (j < n)%nat -> nth j (map f (seq 0 n)) d = f j.
Proof.
  intros H. rewrite (nth_indep _ d (f 0%nat))
    by now rewrite length_map, length_seq.
  now rewrite (map_nth f), seq_nth.
Qed.

Lemma nth_fin v j : (j < length v)%nat -> nth j (map Fin v) NaN = Fin (nth j v 0).
Proof.
  intros H. rewrite (nth_indep _ NaN (Fin 0)) by now rewrite length_map.
  apply (map_nth Fin).
Qed.

Lemma rsum_nonneg l : (forall x, In x l -> 0 <= x) -> 0 <= rsum l.
Proof.
  induction l as [|x l IH]; intros H; simpl; [lra|].
  assert (0 <= x) by (apply H; now left).
  assert (0 <= rsum l) by (apply IH; intros y Hy; apply H; now right).
  lra.
Qed.

Lemma average_nonneg l : (forall x, In x l -> 0 <= x) -> 0 <= average l.
Proof.
  intros H. unfold average. destruct l as [|a l].
  - simpl. unfold Rdiv. lra.
  - apply Rmult_le_pos; [now apply rsum_nonneg|].
    apply Rlt_le, Rinv_0_lt_compat, INR_length_pos. discriminate.
Qed.

Lemma rsum_constant c l : (forall x, In x l -> x = c) -> rsum l = INR (length l) * c.
Proof.
  induction l as [|x l IH]; intros H.
  - simpl. lra.
  - change (rsum (x :: l)) with (x + rsum l).
    rewrite IH by (intros y Hy; apply H; now right).
    rewrite (H x) by now left.
    cbn [length]. rewrite S_INR. ring.
Qed.

Lemma average_constant c l :
  l <> [] -> (forall x, In x l -> x = c) -> average l = c.
Proof.
  intros Hne H. unfold average. rewrite (rsum_constant c l H).
  pose proof (INR_length_pos l Hne). field. lra.
Qed.

Lemma std_dev_constant l : l <> [] -> constant l -> std_dev l = 0.
Proof.
  intros Hne Hc. unfold std_dev.
  destruct l as [|a l]; [contradiction|].
  assert (forall x, In x (a :: l) -> x = a) as Ha
      by (intros x Hx; apply Hc; [exact Hx | now left]).
  rewrite (average_constant a (a :: l) Hne Ha).
  rewrite (average_constant 0).
  - apply sqrt_0.
  - discriminate.
  - intros y Hy. apply in_map_iff in Hy. destruct Hy as [x [<- Hx]].
    rewrite (Ha x Hx). lra.
Qed.

(** ** [normalizeTensor] *)

Lemma normalizeTensor_table (a : matrix) (mean stdDev : list num) m n :
  has_shape m n a -> (1 <= m)%nat ->
  length mean = n -> length stdDev = n ->
  normalizeTensor (VTensor (T2 a)) (VTensor (T1 mean)) (VTensor (T1 stdDev)) =
  Ok (VTensor (T2 (tabulate m n (fun i j =>
        ndiv (nsub (entry a i j) (nth j mean NaN)) (nth j stdDev NaN))))).
Proof.
  intros H Hm Hmean Hstd. unfold normalizeTensor.
  rewrite (call_sub_row a mean m n) by assumption. cbn [bind].
  rewrite (call_div_row _ stdDev m n)
    by (try apply tabulate_shape; assumption).
  do 3 f_equal. apply tabulate_ext. intros i j Hi Hj.
  now rewrite entry_tabulate.
Qed.

(** ** [determineMeanAndStddev] *)

Lemma mean_columns m n (M : rmatrix) :
  has_shape m n M -> (1 <= m)%nat ->
  map reduce_mean (columns (inject M)) =
  map Fin (map (fun j => average (rcol M j)) (seq 0 n)).
Proof.
  intros H Hm. rewrite (columns_inject m n M H Hm), !map_map.
  apply map_ext. intros j. apply reduce_mean_fin.
  now apply (rcol_nonempty m n).
Qed.

Lemma rtab_shape r c g : has_shape r c (rtab r c g).
Proof.
  split.
  - unfold rtab. now rewrite length_map, length_seq.
  - apply Forall_forall. intros x Hx. apply in_map_iff in Hx.
    destruct Hx as [i [<- _]]. now rewrite length_map, length_seq.
Qed.

Lemma rcol_rtab r c g j :
  (j < c)%nat -> rcol (rtab r c g) j = map (fun i => g i j) (seq 0 r).
Proof.
  intros Hj. unfold rcol, rtab. rewrite map_map. apply map_ext.
  intros i. now apply nth_map_seq.
Qed.

Lemma determineMeanAndStddev_table m n (M : rmatrix) :
  has_shape m n M -> (1 <= m)%nat ->
  determineMeanAndStddev (tensor_of M) =
  Ok [("dataMean", vector_of (map (fun j => average (rcol M j)) (seq 0 n)));
      ("dataStd", vector_of (map (fun j => std_dev (rcol M j)) (seq 0 n)))].
Proof.
  intros H Hm. unfold determineMeanAndStddev, tensor_of, vector_of.
  rewrite (call_reduce0 reduce_mean "mean") by reflexivity. cbn [bind].
  rewrite (mean_columns m n M H Hm).
  set (mu := fun j => average (rcol M j)).
  rewrite (call_sub_row (inject M) _ m n);
    [ | now apply inject_shape | assumption
      | now rewrite !length_map, length_seq ].
  cbn [bind].
  rewrite (tabulate_ext m n _ (fun i j => Fin (rentry M i j - mu j))).
  2:{ intros i j Hi Hj. rewrite (entry_inject m n) by assumption.
      rewrite nth_fin by now rewrite length_map, length_seq.
      now rewrite nth_map_seq. }
  change (call_method (VTensor (T2 ?t)) "square" [])
    with (Ok (VTensor (T2 (map (map (fun y => nmul y y)) t)))).
  cbn [bind]. rewrite map_tabulate. cbn [nmul].
  rewrite tabulate_fin.
  rewrite (call_reduce0 reduce_mean "mean") by reflexivity. cbn [bind].
  rewrite (mean_columns m n _ (rtab_shape _ _ _) Hm).
  change (call_method (VTensor (T1 ?t)) "sqrt" [])
    with (Ok (VTensor (T1 (map nsqrt t)))).
  cbn [bind]. do 6 f_equal. rewrite !map_map. apply map_ext_in.
  intros j Hj. apply in_seq in Hj.
  rewrite nsqrt_fin.
  - f_equal. unfold std_dev, mu. f_equal. rewrite rcol_rtab by lia.
    rewrite (rcol_seq m n M j H), map_map. reflexivity.
  - apply average_nonneg. intros x Hx. rewrite rcol_rtab in Hx by lia.
    apply in_map_iff in Hx. destruct Hx as [i [<- _]]. apply Rle_0_sqr.
Qed.

(** ** [normalizeTensorWithMinMax] *)

Lemma columns_choice (g : list num -> num) (P : list R -> R -> Prop)
      (M : rmatrix) (k : nat) :
  (forall l, l <> [] -> exists x, g (map Fin l) = Fin x /\ P l x) ->
  M <> [] ->
  exists v, length v = k /\
            map (fun j => g (map Fin (rcol M j))) (seq 0 k) = map Fin v /\
            forall j, (j < k)%nat -> P (rcol M j) (nth j v 0).
Proof.
  intros Hg HM. induction k as [|k [v [Hlen [Hmap Hv]]]].
  - exists []. repeat split. intros j Hj. lia.
  - destruct (Hg (rcol M k)) as [x [Hx HP]].
    { destruct M; [contradiction | discriminate]. }
    exists (v ++ [x])%list. repeat split.
    + rewrite length_app. simpl. lia.
    + rewrite seq_S, !map_app, Hmap. simpl. now rewrite Hx.
    + intros j Hj. destruct (Nat.eq_dec j k) as [->|Hne].
      * rewrite app_nth2 by lia. rewrite Hlen, Nat.sub_diag. exact HP.
      * rewrite app_nth1 by lia. apply Hv. lia.
Qed.

Lemma min_columns m n (M : rmatrix) :
  has_shape m n M -> (1 <= m)%nat ->
  exists mn, length mn = n /\
             map reduce_min (columns (inject M)) = map Fin mn /\
             forall j, (j < n)%nat -> is_min (rcol M j) (nth j mn 0).
Proof.
  intros H Hm. rewrite (columns_inject m n M H Hm), map_map.
  apply (columns_choice reduce_min is_min); [apply reduce_min_fin|].
  destruct H as [Hl _]. destruct M; [simpl in Hl; lia | discriminate].
Qed.

Lemma max_columns m n (M : rmatrix) :
  has_shape m n M -> (1 <= m)%nat ->
  exists mx, length mx = n /\
             map reduce_max (columns (inject M)) = map Fin mx /\
             forall j, (j < n)%nat -> is_max (rcol M j) (nth j mx 0).
Proof.
  intros H Hm. rewrite (columns_inject m n M H Hm), map_map.
  apply (columns_choice reduce_max is_max); [apply reduce_max_fin|].
  destruct H as [Hl _]. destruct M; [simpl in Hl; lia | discriminate].
Qed.

Lemma normalizeTensorWithMinMax_table m n (M : rmatrix) :
  has_shape m n M -> (1 <= m)%nat ->
  exists mn mx,
    length mn = n /\ length mx = n /\
    (forall j, (j < n)%nat ->
       is_min (rcol M j) (nth j mn 0) /\ is_max (rcol M j) (nth j mx 0)) /\
    normalizeTensorWithMinMax (tensor_of M) =
    Ok (VTensor (T2 (tabulate m n (fun i j =>
          ndiv (Fin (rentry M i j - nth j mn 0))
               (Fin (nth j mx 0 - nth j mn 0)))))).
Proof.
  intros H Hm.
  destruct (min_columns m n M H Hm) as [mn [Lmn [Emn Pmn]]].
  destruct (max_columns m n M H Hm) as [mx [Lmx [Emx Pmx]]].
  exists mn, mx. repeat split; try assumption;
    try (now apply Pmn); try (now apply Pmx).
  unfold normalizeTensorWithMinMax, tensor_of.
  rewrite (call_reduce0 reduce_min "min") by reflexivity. cbn [bind].
  rewrite (call_reduce0 reduce_max "max") by reflexivity. cbn [bind].
  rewrite Emn, Emx.
  rewrite (call_sub_row (inject M) _ m n);
    [ | now apply inject_shape | assumption | now rewrite length_map ].
  cbn [bind].
  rewrite (call_sub_vectors _ _ n) by now rewrite length_map.
  cbn [bind].
  rewrite (call_div_row _ _ m n);
    [ | apply tabulate_shape | assumption
      | now rewrite length_map, length_seq ].
  do 3 f_equal. apply tabulate_ext. intros i j Hi Hj.
  rewrite entry_tabulate, (entry_inject m n), nth_map_seq by assumption.
  rewrite !nth_fin by lia. reflexivity.
Qed.

Lemma in_rcol m n (M : rmatrix) j x :
  has_shape m n M -> In x (rcol M j) ->
  exists i, (i < m)%nat /\ rentry M i j = x.
Proof.
  intros H Hx. rewrite (rcol_seq m n M j H) in Hx.
  apply in_map_iff in Hx. destruct Hx as [i [E Hi]]. apply in_seq in Hi.
  exists i. split; [lia | exact E].
Qed.

Lemma rentry_in_rcol m n (M : rmatrix) i j :
  has_shape m n M -> (i < m)%nat -> In (rentry M i j) (rcol M j).
Proof.
  intros H Hi. rewrite (rcol_seq m n M j H).
  apply in_map_iff. exists i. split; [reflexivity|]. apply in_seq. lia.
Qed.

Lemma min_max_constant l mn mx :
  is_min l mn -> is_max l mx -> (constant l <-> mn = mx).
Proof.
  intros [Imn Lmn] [Imx Lmx]. split.
  - intros Hc. now apply Hc.
  - intros E x y Hx Hy.
    pose proof (Lmn x Hx). pose proof (Lmx x Hx).
    pose proof (Lmn y Hy). pose proof (Lmx y Hy). lra.
Qed.

Lemma min_le_max l mn mx : is_min l mn -> is_max l mx -> mn <= mx.
Proof. intros [Imn Lmn] [Imx Lmx]. now apply Lmn. Qed.

(** ** [normalizeTensorWithZScore] *)

(** The object [determineMeanAndStddev] returns has the keys [dataMean] and
    [dataStd]; under [mean] and [std] it has nothing. *)
Lemma stats_keys data stats :
  determineMeanAndStddev data = Ok stats ->
  get_prop stats "mean" = VUndefined /\ get_prop stats "std" = VUndefined.
Proof.
  unfold determineMeanAndStddev. intros H.
  destruct (call_method data "mean" [VNum 0]) as [v1|]; [|discriminate].
  cbn [bind] in H.
  destruct (call_method data "sub" [v1]) as [v2|]; [|discriminate].
  cbn [bind] in H.
  destruct (call_method v2 "square" []) as [v3|]; [|discriminate].
  cbn [bind] in H.
  destruct (call_method v3 "mean" [VNum 0]) as [v4|]; [|discriminate].
  cbn [bind] in H.
  destruct (call_method v4 "sqrt" []) as [v5|]; [|discriminate].
  cbn [bind] in H. injection H as <-. split; reflexivity.
Qed.

Lemma normalizeTensor_undefined data :
  exists e, normalizeTensor data VUndefined VUndefined = Throw e.
Proof.
  unfold normalizeTensor.
  destruct (call_sub_undefined data) as [e ->]. now exists e.
Qed.

(** On no input does [normalizeTensorWithZScore] return. *)
Lemma normalizeTensorWithZScore_throws data :
  exists e, normalizeTensorWithZScore data = Throw e.
Proof.
  unfold normalizeTensorWithZScore.
  destruct (determineMeanAndStddev data) as [stats|e] eqn:E.
  - cbn [bind]. destruct (stats_keys data stats E) as [-> ->].
    apply normalizeTensor_undefined.
  - now exists e.
Qed.

Lemma normalizeTensorWithZScore_matrix m n (M : rmatrix) :
  has_shape m n M -> (1 <= m)%nat ->
  normalizeTensorWithZScore (tensor_of M) = Throw TfError.
Proof.
  intros H Hm. unfold normalizeTensorWithZScore.
  rewrite (determineMeanAndStddev_table m n M H Hm). reflexivity.
Qed.

(** ** [normalizeTensorWithLogScaling] *)

Lemma ln_10_pos : 0 < ln 10.
Proof. rewrite <- ln_1. apply ln_increasing; lra. Qed.

Lemma normalizeTensorWithLogScaling_no_tf global rows :
  global "tf" = None ->
  normalizeTensorWithLogScaling global (VTensor (T2 rows)) =
  Throw ReferenceError.
Proof.
  intros H. unfold normalizeTensorWithLogScaling, lookup_global.
  rewrite H. reflexivity.
Qed.

Lemma normalizeTensorWithLogScaling_with_tf global m n (M : rmatrix) :
  global "tf" = Some VTf ->
  has_shape m n M -> (1 <= m)%nat ->
  (forall i j, (i < m)%nat -> (j < n)%nat -> 0 < rentry M i j) ->
  normalizeTensorWithLogScaling global (tensor_of M) =
  Ok (VTensor (T2 (tabulate m n (fun i j =>
        Fin (ln (rentry M i j) / ln 10))))).
Proof.
  intros Hg H Hm Hpos.
  unfold normalizeTensorWithLogScaling, tensor_of, lookup_global.
  rewrite Hg.
  change (call_method (VTensor (T2 ?t)) "log" [])
    with (Ok (VTensor (T2 (map (map nlog) t)))).
  cbn [bind].
  change (call_method VTf "log" [VNum 10])
    with (Ok (VTensor (T0 (nlog (Fin 10))))).
  cbn [bind]. rewrite nlog_fin by lra.
  rewrite (call_div_scalar _ _ m n);
    [ | now apply has_shape_map, inject_shape | assumption ].
  do 3 f_equal. apply tabulate_ext. intros i j Hi Hj.
  rewrite (inject_tabulate m n M H), map_tabulate.
  rewrite entry_tabulate by assumption.
  rewrite nlog_fin by now apply Hpos.
  apply ndiv_fin. pose proof ln_10_pos. lra.
Qed.



(** ** [normalizeTensorWithRobustScaling] *)

Lemma normalizeTensorWithRobustScaling_throws data :
  normalizeTensorWithRobustScaling data = Throw TypeError.
Proof. destruct data; reflexivity. Qed.

(** The selection of the upper quartile, [quartiles.slice([2], [3])],
    asks for three entries from index 2 on: whatever tensor holds fewer
    than five entries along its first axis, the call throws. *)
Lemma slice_upper_quartile quartiles k :
  shape quartiles = k :: tl (shape quartiles) -> (k < 5)%nat ->
  call_method (VTensor quartiles) "slice" [VArr [2%Z]; VArr [3%Z]] =
  Throw TfError.
Proof.
  intros Hs Hk.
  change (call_method (VTensor quartiles) "slice" ?args)
    with (slice quartiles args).
  destruct quartiles as [x|v|rows]; [discriminate | |].
  - injection Hs as Hs. unfold slice. cbn [slice_param nth length Nat.leb andb].
    unfold slice_range. cbn [Z.ltb Z.compare].
    destruct (Z.leb_spec (2 + 3) (Z.of_nat (length v))); [lia | reflexivity].
  - injection Hs as Hs. unfold slice. cbn [slice_param nth length Nat.leb andb].
    unfold slice_range at 1. cbn [Z.ltb Z.compare].
    destruct (Z.leb_spec (2 + 3) (Z.of_nat (nrows rows))); [lia | reflexivity].
Qed.

(** ** The composition [normalizeTensorWithZScore] stands for

    Calling [determineMeanAndStddev] and [normalizeTensor] one after the
    other, as [spec_normalizeWithZScore] does, standardizes every column
    that is not constant. *)

Lemma rsum_shift_scale c s l :
  rsum (map (fun x => (x - c) / s) l) = (rsum l - INR (length l) * c) / s.
Proof.
  induction l as [|x l IH].
  - simpl. unfold Rdiv. ring.
  - change (rsum (map (fun x => (x - c) / s) (x :: l)))
      with ((x - c) / s + rsum (map (fun x => (x - c) / s) l)).
    rewrite IH. change (rsum (x :: l)) with (x + rsum l).
    cbn [length]. rewrite S_INR. unfold Rdiv. ring.
Qed.

Lemma rsum_zero l :
  (forall x, In x l -> 0 <= x) -> rsum l = 0 -> forall x, In x l -> x = 0.
Proof.
  induction l as [|a l IH]; intros Hpos Hsum x Hx; [contradiction|].
  change (rsum (a :: l)) with (a + rsum l) in Hsum.
  assert (0 <= a) by (apply Hpos; now left).
  assert (0 <= rsum l) by (apply rsum_nonneg; intros y Hy; apply Hpos; now right).
  destruct Hx as [<-|Hx]; [lra|].
  apply IH; [intros y Hy; apply Hpos; now right | lra | exact Hx].
Qed.

Lemma rsum_average l : l <> [] -> rsum l = INR (length l) * average l.
Proof.
  intros H. unfold average. pose proof (INR_length_pos l H). field. lra.
Qed.

Lemma variance_pos l :
  ~ constant l ->
  0 < average (map (fun x => (x - average l) * (x - average l)) l).
Proof.
  intros Hnc.
  set (sq := map (fun x => (x - average l) * (x - average l)) l).
  assert (forall y, In y sq -> 0 <= y) as Hpos.
  { intros y Hy. apply in_map_iff in Hy. destruct Hy as [x [<- _]].
    apply Rle_0_sqr. }
  destruct (Rle_lt_or_eq_dec _ _ (average_nonneg sq Hpos)) as [Hlt|Heq];
    [exact Hlt|].
  exfalso. apply Hnc.
  assert (l <> []) as Hne by (intros ->; apply Hnc; intros x y []).
  assert (sq <> []) as Hsq by (destruct l; [contradiction | discriminate]).
  assert (rsum sq = 0) as Hsum by (rewrite (rsum_average sq Hsq), <- Heq; ring).
  assert (forall x, In x l -> x = average l) as Hall.
  { intros x Hx.
    assert ((x - average l) * (x - average l) = 0) as Hz.
    { apply (rsum_zero sq Hpos Hsum). apply in_map_iff. now exists x. }
    apply Rmult_integral in Hz. lra. }
  intros x y Hx Hy. now rewrite (Hall x Hx), (Hall y Hy).
Qed.

Lemma standardized l :
  ~ constant l ->
  let z := map (fun x => (x - average l) / std_dev l) l in
  average z = 0 /\ std_dev z = 1.
Proof.
  intros Hnc z.
  assert (l <> []) as Hne by (intros ->; apply Hnc; intros x y []).
  pose proof (INR_length_pos l Hne) as Hn.
  pose proof (variance_pos l Hnc) as HV.
  assert (0 < std_dev l) as Hs by (apply sqrt_lt_R0; exact HV).
  assert (average z = 0) as Hz.
  { unfold average, z. rewrite length_map, rsum_shift_scale.
    rewrite (rsum_average l Hne). field. lra. }
  split; [exact Hz|].
  unfold std_dev at 1. rewrite Hz. unfold z. rewrite map_map.
  rewrite (map_ext _ (fun x => (x - average l) * (x - average l) /
                               (std_dev l * std_dev l)))
    by (intros x; field; lra).
  unfold std_dev. rewrite sqrt_sqrt by lra.
  set (V := average (map (fun x => (x - average l) * (x - average l)) l)) in *.
  rewrite <- (map_map (fun x => (x - average l) * (x - average l))
                      (fun y => y / V)).
  unfold average at 1. rewrite rsum_scale, !length_map.
  replace (rsum (map (fun x => (x - average l) * (x - average l)) l))
    with (INR (length l) * V).
  - replace (INR (length l) * V / V / INR (length l)) with 1
      by (field; lra).
    apply sqrt_1.
  - unfold V. rewrite (rsum_average (map _ l)), length_map; [reflexivity|].
    destruct l; [contradiction | discriminate].
Qed.

Lemma spec_normalizeWithZScore_standardized m n (M : rmatrix) :
  has_shape m n M -> (1 <= m)%nat ->
  (forall j, (j < n)%nat -> ~ constant (rcol M j)) ->
  exists Z,
    spec_normalizeWithZScore (tensor_of M) = Ok (tensor_of Z) /\
    has_shape m n Z /\
    forall j, (j < n)%nat ->
      average (rcol Z j) = 0 /\ std_dev (rcol Z j) = 1.
Proof.
  intros H Hm Hnc.
  exists (rtab m n (fun i j =>
            (rentry M i j - average (rcol M j)) / std_dev (rcol M j))).
  split; [|split; [apply rtab_shape|]].
  - unfold spec_normalizeWithZScore.
    rewrite (determineMeanAndStddev_table m n M H Hm). cbn [bind].
    change (get_prop _ "dataMean")
      with (vector_of (map (fun j => average (rcol M j)) (seq 0 n))).
    change (get_prop _ "dataStd")
      with (vector_of (map (fun j => std_dev (rcol M j)) (seq 0 n))).
    unfold tensor_of, vector_of.
    rewrite (normalizeTensor_table _ _ _ m n);
      [ | now apply inject_shape | assumption
        | now rewrite !length_map, length_seq
        | now rewrite !length_map, length_seq ].
    do 3 f_equal. rewrite <- tabulate_fin. apply tabulate_ext.
    intros i j Hi Hj. rewrite (entry_inject m n) by assumption.
    rewrite !nth_fin by now rewrite length_map, length_seq.
    rewrite !nth_map_seq by assumption. cbn [nsub].
    apply ndiv_fin.
    pose proof (variance_pos _ (Hnc j Hj)) as HV.
    apply sqrt_lt_R0 in HV. unfold std_dev. lra.
  - intros j Hj. rewrite rcol_rtab by assumption.
    pose proof (standardized (rcol M j) (Hnc j Hj)) as Hst.
    cbv zeta in Hst. rewrite (rcol_seq m n M j H), map_map in Hst.
    rewrite <- (rcol_seq m n M j H) in Hst. exact Hst.
Qed.

(** On a matrix with at least one row the composition returns a matrix of
    the shape of the input. *)
Lemma spec_normalizeWithZScore_returns m n (M : rmatrix) :
  has_shape m n M -> (1 <= m)%nat ->
  exists out, spec_normalizeWithZScore (tensor_of M) = Ok (VTensor (T2 out)) /\
              has_shape m n out.
Proof.
  intros H Hm. unfold spec_normalizeWithZScore.
  rewrite (determineMeanAndStddev_table m n M H Hm). cbn [bind].
  change (get_prop _ "dataMean")
    with (vector_of (map (fun j => average (rcol M j)) (seq 0 n))).
  change (get_prop _ "dataStd")
    with (vector_of (map (fun j => std_dev (rcol M j)) (seq 0 n))).
  unfold tensor_of, vector_of. eexists. split; [|apply (tabulate_shape m n)].
  apply (normalizeTensor_table _ _ _ m n);
    [ now apply inject_shape | assumption
    | now rewrite !length_map, length_seq
    | now rewrite !length_map, length_seq ].
Qed.

(** * The claims of the specification *)

Ltac shape_tac :=
  split; [reflexivity | repeat constructor].



(** C9: a deviation 0 passed to [normalizeTensor], and a constant column
    given to [normalizeTensorWithMinMax], throw nothing: the call returns a
    matrix of the shape of the input, whose entries in that column are NaN
    or infinite in the first case and NaN in the second. *)
Theorem edge_cases_propagate :
  (forall (a : matrix) (mean stdDev : list num) (m n j : nat),
      has_shape m n a -> (1 <= m)%nat ->
      length mean = n -> length stdDev = n ->
      (j < n)%nat -> nth j stdDev NaN = Fin 0 ->
      exists out,
        normalizeTensor (VTensor (T2 a)) (VTensor (T1 mean))
                        (VTensor (T1 stdDev)) = Ok (VTensor (T2 out)) /\
        has_shape m n out /\
        forall i, (i < m)%nat -> special (entry out i j)) /\
  (forall (M : rmatrix) (m n j : nat),
      has_shape m n M -> (1 <= m)%nat -> (j < n)%nat ->
      constant (rcol M j) ->
      exists out,
        normalizeTensorWithMinMax (tensor_of M) = Ok (VTensor (T2 out)) /\
        has_shape m n out /\
        forall i, (i < m)%nat -> entry out i j = NaN).
Proof.
  split.
  - intros a mean stdDev m n j H Hm Hmean Hstd Hj Hzero.
    eexists. split; [now apply (normalizeTensor_table a mean stdDev m n)|].
    split; [apply tabulate_shape|].
    intros i Hi. rewrite entry_tabulate by assumption.
    rewrite Hzero. apply ndiv_by_zero_special.
  - intros M m n j H Hm Hj Hc.
    destruct (normalizeTensorWithMinMax_table m n M H Hm)
      as [mn [mx [Lmn [Lmx [P E]]]]].
    destruct (P j Hj) as [Pmin Pmax].
    eexists. split; [exact E|]. split; [apply tabulate_shape|].
    intros i Hi. rewrite entry_tabulate by assumption.
    pose proof (proj1 (min_max_constant _ _ _ Pmin Pmax) Hc) as Heq.
    pose proof (rentry_in_rcol m n M i j H Hi) as Hin.
    rewrite (Hc _ _ Hin (proj1 Pmin)), <- Heq.
    replace (nth j mn 0 - nth j mn 0) with 0 by lra.
    apply ndiv_zero_zero.
Qed.

Lemma edge_cases_propagate_witness :
  (exists out,
      normalizeTensor (VTensor (T2 [[Fin 1; Fin 2]; [Fin 5; Fin 8]]))
                      (VTensor (T1 [Fin 3; Fin 2]))
                      (VTensor (T1 [Fin 2; Fin 0])) = Ok (VTensor (T2 out)) /\
      has_shape 2 2 out /\
      forall i, (i < 2)%nat -> special (entry out i 1)) /\
  (exists out,
      normalizeTensorWithMinMax (tensor_of [[1; 7]; [4; 7]]) =
      Ok (VTensor (T2 out)) /\
      has_shape 2 2 out /\
      forall i, (i < 2)%nat -> entry out i 1 = NaN).
Proof.
  split.
  - apply (proj1 edge_cases_propagate [[Fin 1; Fin 2]; [Fin 5; Fin 8]]
                 [Fin 3; Fin 2] [Fin 2; Fin 0] 2%nat 2%nat 1%nat).
    + shape_tac.
    + lia.
    + reflexivity.
    + reflexivity.
    + lia.
    + reflexivity.
  - apply (proj2 edge_cases_propagate [[1; 7]; [4; 7]] 2%nat 2%nat 1%nat).
    + shape_tac.
    + lia.
    + lia.
    + intros x y Hx Hy. cbn [rcol map nth In] in Hx, Hy.
      destruct Hx as [<-|[<-|[]]], Hy as [<-|[<-|[]]]; reflexivity.
Defined.

(** ** What the code does where it leaves the specification *)

Lemma average_two a b : average [a; b] = (a + b) / 2.
Proof. unfold average. simpl. field. Qed.

(** C1: on [[1,2],[3,4],[5,6]] the two lower-level functions, called one
    after the other with the statistics of the matrix, return a matrix of
    its shape, and [normalizeTensorWithZScore] throws: it reads the
    statistics under keys the returned object does not have and passes
    [undefined] on. *)
Theorem normalizeTensorWithZScore_vs_composition :
  let data := tensor_of [[1; 2]; [3; 4]; [5; 6]] in
  normalizeTensorWithZScore data = Throw TfError /\
  (exists out, spec_normalizeWithZScore data = Ok (VTensor (T2 out)) /\
               has_shape 3 2 out) /\
  exists stats,
    determineMeanAndStddev data = Ok stats /\
    get_prop stats "mean" = VUndefined /\
    get_prop stats "std" = VUndefined.
Proof.
  assert (has_shape 3 2 [[1; 2]; [3; 4]; [5; 6]]) as H by shape_tac.
  cbv zeta. split; [|split].
  - apply (normalizeTensorWithZScore_matrix 3 2); [exact H | lia].
  - apply spec_normalizeWithZScore_returns; [exact H | lia].
  - eexists.
    split; [apply (determineMeanAndStddev_table 3 2); [exact H | lia]|].
    split; reflexivity.
Qed.

(** C7: on the column [1,3], which is not constant,
    [normalizeTensorWithZScore] throws, so that there is no output whose
    mean and deviation could be 0 and 1; the two lower-level functions
    called one after the other give the column [-1,1], of mean 0 and
    deviation 1. *)
Theorem normalizeTensorWithZScore_not_standardized :
  let data := tensor_of [[1]; [3]] in
  ~ constant (rcol [[1]; [3]] 0) /\
  normalizeTensorWithZScore data = Throw TfError /\
  spec_normalizeWithZScore data = Ok (tensor_of [[-1]; [1]]) /\
  average (rcol [[-1]; [1]] 0) = 0 /\ std_dev (rcol [[-1]; [1]] 0) = 1.
Proof.
  assert (has_shape 2 1 [[1]; [3]]) as H by shape_tac.
  cbv zeta. split; [|split; [|split; [|split]]].
  - intros Hc. specialize (Hc 1 3). cbn [rcol map nth In] in Hc.
    assert (1 = 3) by (apply Hc; auto). lra.
  - apply (normalizeTensorWithZScore_matrix 2 1); [exact H | lia].
  - unfold spec_normalizeWithZScore.
    rewrite (determineMeanAndStddev_table 2 1) by (try exact H; lia).
    cbn [bind].
    change (get_prop _ "dataMean")
      with (vector_of [average (rcol [[1]; [3]] 0)]).
    change (get_prop _ "dataStd")
      with (vector_of [std_dev (rcol [[1]; [3]] 0)]).
    cbn [rcol map nth]. unfold std_dev. cbn [map].
    rewrite !average_two.
    replace ((1 + 3) / 2) with 2 by lra.
    replace (((1 - 2) * (1 - 2) + (3 - 2) * (3 - 2)) / 2) with 1 by lra.
    rewrite sqrt_1. unfold tensor_of, vector_of.
    rewrite (normalizeTensor_table _ _ _ 2 1);
      [ | now apply inject_shape | lia | reflexivity | reflexivity ].
    unfold inject, entry. cbn [tabulate seq map nth nsub].
    rewrite !ndiv_fin by lra.
    replace ((1 - 2) / 1) with (-1) by lra.
    replace ((3 - 2) / 1) with 1 by lra.
    reflexivity.
  - cbn [rcol map nth]. rewrite average_two. lra.
  - cbn [rcol map nth]. unfold std_dev. cbn [map]. rewrite !average_two.
    replace ((-1 + 1) / 2) with 0 by lra.
    replace (((-1 - 0) * (-1 - 0) + (1 - 0) * (1 - 0)) / 2) with 1 by lra.
    apply sqrt_1.
Qed.

(** C4: the module binds no [tf]; in a global scope without that name
    [normalizeTensorWithLogScaling] throws a reference error on the matrix
    [[10]], where the logarithm to base 10 is 1.  In a global scope that
    holds the library under [tf] the same call returns [[1]]. *)
Theorem normalizeTensorWithLogScaling_unbound_tf :
  normalizeTensorWithLogScaling global_without_tf (tensor_of [[10]]) =
  Throw ReferenceError /\
  normalizeTensorWithLogScaling global_with_tf (tensor_of [[10]]) =
  Ok (tensor_of [[1]]).
Proof.
  split.
  - now apply normalizeTensorWithLogScaling_no_tf.
  - rewrite (normalizeTensorWithLogScaling_with_tf global_with_tf 1 1);
      [ | reflexivity | shape_tac | lia | ].
    + unfold rentry, tensor_of, inject. cbn [tabulate seq map nth].
      replace (ln 10 / ln 10) with 1; [reflexivity|].
      field. pose proof ln_10_pos. lra.
    + intros i j Hi Hj. assert (i = 0%nat) as -> by lia.
      assert (j = 0%nat) as -> by lia. unfold rentry. cbn [nth]. lra.
Qed.

(** C5: on the column [1,2,3,4,5] [normalizeTensorWithRobustScaling]
    throws a type error: a tensor has no method [median].  The quartile
    selection further down could not succeed either on a tensor of three
    quartiles. *)
Theorem normalizeTensorWithRobustScaling_fails :
  normalizeTensorWithRobustScaling (tensor_of [[1]; [2]; [3]; [4]; [5]]) =
  Throw TypeError /\
  forall q1 q2 q3 : num,
    call_method (VTensor (T2 [[q1]; [q2]; [q3]])) "slice"
                [VArr [2%Z]; VArr [3%Z]] = Throw TfError.
Proof.
  split.
  - apply normalizeTensorWithRobustScaling_throws.
  - intros q1 q2 q3. apply (slice_upper_quartile _ 3); [reflexivity | lia].
Qed.

(** C10: on the 1x1 matrix [[2]] [normalizeTensor] and
    [normalizeTensorWithMinMax] return a 1x1 matrix, and the three other
    transforms return no matrix at all: [normalizeTensorWithZScore] and
    [normalizeTensorWithRobustScaling] throw, and so does
    [normalizeTensorWithLogScaling] where [tf] is unbound. *)
Theorem transforms_shape :
  let data := tensor_of [[2]] in
  (exists out, normalizeTensor data (vector_of [1]) (vector_of [4]) =
               Ok (VTensor (T2 out)) /\ has_shape 1 1 out) /\
  (exists out, normalizeTensorWithMinMax data = Ok (VTensor (T2 out)) /\
               has_shape 1 1 out) /\
  normalizeTensorWithZScore data = Throw TfError /\
  normalizeTensorWithRobustScaling data = Throw TypeError /\
  normalizeTensorWithLogScaling global_without_tf data = Throw ReferenceError.
Proof.
  assert (has_shape 1 1 [[2]]) as H by shape_tac.
  cbv zeta. split; [|split; [|split; [|split]]].
  - eexists. split; [|apply (tabulate_shape 1 1)].
    unfold tensor_of, vector_of.
    apply (normalizeTensor_table _ _ _ 1 1);
      [now apply inject_shape | lia | reflexivity | reflexivity].
  - destruct (normalizeTensorWithMinMax_table 1 1 [[2]] H)
      as [mn [mx [_ [_ [_ E]]]]]; [lia|].
    eexists. split; [exact E | apply tabulate_shape].
  - apply (normalizeTensorWithZScore_matrix 1 1); [exact H | lia].
  - apply normalizeTensorWithRobustScaling_throws.
  - now apply normalizeTensorWithLogScaling_no_tf.
Qed.

(** * Further properties of the module *)

(** [normalizeTensorWithZScore] returns on no argument whatever: every call
    ends in an exception. *)
Theorem normalizeTensorWithZScore_never_returns (data : value) :
  forall out, normalizeTensorWithZScore data <> Ok out.
Proof.
  intros out Hout.
  destruct (normalizeTensorWithZScore_throws data) as [e He].
  rewrite He in Hout. discriminate.
Qed.

(** ** [normalizeTensorWithLogScaling] where [tf] is bound *)






(** ** The quartile selection of [normalizeTensorWithRobustScaling] *)

Lemma slice_range_fixed len b s :
  (0 <= b)%Z -> (0 <= s)%Z ->
  slice_range len b s =
  if (b + s <=? Z.of_nat len)%Z then Ok (Z.to_nat b, Z.to_nat s)
  else Throw TfError.
Proof.
  intros Hb Hs. unfold slice_range.
  destruct (Z.ltb_spec b 0); [lia|].
  destruct (Z.ltb_spec s (-1)); [lia|].
  destruct (Z.ltb_spec s 0); [lia|].
  destruct (Z.leb_spec 0 s); [|lia].
  now rewrite andb_true_r.
Qed.

Lemma slice_range_rest len : slice_range len 0 (-1) = Ok (0%nat, len).
Proof.
  unfold slice_range. cbn [Z.ltb Z.compare].
  replace (Z.of_nat len - 0)%Z with (Z.of_nat len) by lia.
  destruct (Z.leb_spec (0 + Z.of_nat len) (Z.of_nat len)); [|lia].
  destruct (Z.leb_spec 0 (Z.of_nat len)); [|lia].
  cbn [andb Z.to_nat]. now rewrite Nat2Z.id.
Qed.

Lemma in_firstn {A : Type} k (l : list A) x : In x (firstn k l) -> In x l.
Proof.
  intros H. rewrite <- (firstn_skipn k l). apply in_or_app. now left.
Qed.

Lemma in_skipn {A : Type} k (l : list A) x : In x (skipn k l) -> In x l.
Proof.
  intros H. rewrite <- (firstn_skipn k l). apply in_or_app. now right.
Qed.

Lemma cut_rows_whole k n (rows : matrix) :
  Forall (fun r => length r = n) rows ->
  map (cut (0%nat, n)) (firstn k rows) = firstn k rows.
Proof.
  intros Hn. rewrite <- (map_id (firstn k rows)) at 2.
  apply map_ext_in. intros r Hr. unfold cut. cbn [fst snd skipn].
  apply firstn_all2. rewrite Forall_forall in Hn.
  rewrite (Hn r); [lia|]. eapply in_firstn. exact Hr.
Qed.

(** The two selections from [quartiles]: [slice([0], [1])] returns the
    first row, and [slice([2], [3])], meant for the upper quartile alone,
    returns the three rows 2, 3 and 4 where there are at least five rows
    and throws where there are fewer; in no case does it return row 2
    alone. *)
Theorem quartile_slices (rows : matrix) m n :
  has_shape m n rows -> (1 <= m)%nat ->
  call_method (VTensor (T2 rows)) "slice" [VArr [0%Z]; VArr [1%Z]] =
  Ok (VTensor (T2 (firstn 1 rows))) /\
  call_method (VTensor (T2 rows)) "slice" [VArr [2%Z]; VArr [3%Z]] =
  if (5 <=? m)%nat then Ok (VTensor (T2 (firstn 3 (skipn 2 rows))))
  else Throw TfError.
Proof.
  intros H Hm. pose proof (has_shape_ncols m n rows H Hm) as Hc.
  destruct H as [Hlen Hn].
  change (call_method (VTensor (T2 rows)) "slice" ?args)
    with (slice (T2 rows) args).
  remember (5 <=? m)%nat as big eqn:Hbig.
  unfold slice. cbn [slice_param nth length Nat.leb andb].
  unfold nrows. rewrite Hc, Hlen, slice_range_rest.
  rewrite !slice_range_fixed by lia. split.
  - destruct (Z.leb_spec (0 + 1) (Z.of_nat m)); [|lia].
    cbn [bind]. unfold cut at 2. cbn [fst snd Z.to_nat Pos.to_nat
      Pos.iter_op Nat.add skipn].
    now rewrite cut_rows_whole.
  - subst big. destruct (Nat.leb_spec 5 m);
      destruct (Z.leb_spec (2 + 3) (Z.of_nat m)); try lia; [|reflexivity].
    cbn [bind]. unfold cut at 2. cbn [fst snd].
    change (Z.to_nat 3) with 3%nat. change (Z.to_nat 2) with 2%nat.
    rewrite (cut_rows_whole 3 n (skipn 2 rows)); [reflexivity|].
    apply Forall_forall. intros r Hr. rewrite Forall_forall in Hn.
    apply Hn. eapply in_skipn. exact Hr.
Qed.

Lemma quartile_slices_witness :
  call_method (VTensor (T2 [[Fin 2]; [Fin 3]; [Fin 4]])) "slice"
              [VArr [0%Z]; VArr [1%Z]] =
  Ok (VTensor (T2 (firstn 1 [[Fin 2]; [Fin 3]; [Fin 4]]))) /\
  call_method (VTensor (T2 [[Fin 2]; [Fin 3]; [Fin 4]])) "slice"
              [VArr [2%Z]; VArr [3%Z]] =
  if (5 <=? 3)%nat
  then Ok (VTensor (T2 (firstn 3 (skipn 2 [[Fin 2]; [Fin 3]; [Fin 4]]))))
  else Throw TfError.
Proof.
  apply (quartile_slices [[Fin 2]; [Fin 3]; [Fin 4]] 3 1).
  - shape_tac.
  - lia.
Defined.

(** ** [normalizeTensor] on statistics of another length *)

Lemma bdim_mismatch p q :
  p <> q -> p <> 1%nat -> q <> 1%nat -> bdim p q = None.
Proof.
  intros Hpq Hp Hq. unfold bdim.
  destruct (Nat.eqb_spec p q); [contradiction|].
  destruct (Nat.eqb_spec p 1); [contradiction|].
  destruct (Nat.eqb_spec q 1); [contradiction | reflexivity].
Qed.

Lemma broadcast_mismatch f (a : matrix) (v : list num) m n :
  has_shape m n a -> (1 <= m)%nat ->
  length v <> n -> n <> 1%nat -> length v <> 1%nat ->
  broadcast f a [v] = Throw TfError.
Proof.
  intros H Hm Hv Hn Hv1. unfold broadcast.
  rewrite (has_shape_ncols m n a H Hm).
  replace (ncols [v]) with (length v) by reflexivity.
  rewrite (bdim_mismatch n (length v)) by auto.
  now destruct (bdim (nrows a) (nrows [v])).
Qed.

Lemma bdim_one_l q : bdim 1 q = Some q.
Proof.
  unfold bdim. destruct (Nat.eqb_spec 1 q); [now subst | reflexivity].
Qed.

Lemma broadcast_single_column f (a : matrix) (v : list num) m k :
  has_shape m 1 a -> (1 <= m)%nat -> length v = k ->
  broadcast f a [v] =
  Ok (tabulate m k (fun i j => f (entry a i 0) (nth j v NaN))).
Proof.
  intros H Hm Hv. unfold broadcast.
  rewrite (has_shape_ncols m 1 a H Hm).
  replace (nrows a) with m by (symmetry; apply H).
  replace (nrows [v]) with 1%nat by reflexivity.
  replace (ncols [v]) with k by (symmetry; exact Hv).
  rewrite bdim_one_r, bdim_one_l. f_equal. apply tabulate_ext.
  intros i j Hi Hj. rewrite (bidx_lt m), (bidx_lt k) by assumption.
  reflexivity.
Qed.

(** Statistics whose length fits the matrix neither as it is nor by
    broadcasting make [normalizeTensor] throw: a mean of the wrong length
    at the subtraction, a deviation of the wrong length at the division. *)
Theorem normalizeTensor_length_mismatch (a : matrix) (mean stdDev : list num)
        m n :
  has_shape m n a -> (1 <= m)%nat -> n <> 1%nat ->
  (length mean <> n /\ length mean <> 1%nat) \/
  (length mean = n /\ length stdDev <> n /\ length stdDev <> 1%nat) ->
  normalizeTensor (VTensor (T2 a)) (VTensor (T1 mean)) (VTensor (T1 stdDev))
  = Throw TfError.
Proof.
  intros H Hm Hn [[Hk Hk1] | [Hk [Hs Hs1]]]; unfold normalizeTensor.
  - change (call_method (VTensor (T2 a)) "sub" [VTensor (T1 mean)])
      with (let* c := broadcast nsub a [mean] in Ok (VTensor (T2 c))).
    now rewrite (broadcast_mismatch nsub a mean m n).
  - rewrite (call_sub_row a mean m n) by assumption. cbn [bind].
    change (call_method (VTensor (T2 ?t)) "div" [VTensor (T1 stdDev)])
      with (let* c := broadcast ndiv t [stdDev] in Ok (VTensor (T2 c))).
    rewrite (broadcast_mismatch ndiv _ stdDev m n);
      [reflexivity | apply tabulate_shape | assumption..].
Qed.

Lemma normalizeTensor_length_mismatch_witness :
  normalizeTensor (VTensor (T2 [[Fin 1; Fin 2]; [Fin 5; Fin 8]]))
                  (VTensor (T1 [Fin 3; Fin 4; Fin 5]))
                  (VTensor (T1 [Fin 2; Fin 4]))
  = Throw TfError.
Proof.
  apply (normalizeTensor_length_mismatch
           [[Fin 1; Fin 2]; [Fin 5; Fin 8]] [Fin 3; Fin 4; Fin 5]
           [Fin 2; Fin 4] 2 2).
  - shape_tac.
  - lia.
  - lia.
  - left. cbn [length]. split; lia.
Defined.

(** A matrix of one column is broadcast against longer statistics: given
    [k] means and [k] deviations, [normalizeTensor] returns a matrix of
    [k] columns, that is, of another shape than its input, the single
    input column being normalized with each pair in turn. *)
Theorem normalizeTensor_single_column (a : matrix) (mean stdDev : list num)
        m k :
  has_shape m 1 a -> (1 <= m)%nat ->
  length mean = k -> length stdDev = k ->
  exists out,
    normalizeTensor (VTensor (T2 a)) (VTensor (T1 mean)) (VTensor (T1 stdDev))
    = Ok (VTensor (T2 out)) /\
    has_shape m k out /\
    forall i j, (i < m)%nat -> (j < k)%nat ->
      entry out i j =
      ndiv (nsub (entry a i 0) (nth j mean NaN)) (nth j stdDev NaN).
Proof.
  intros H Hm Hmean Hstd. unfold normalizeTensor.
  change (call_method (VTensor (T2 a)) "sub" [VTensor (T1 mean)])
    with (let* c := broadcast nsub a [mean] in Ok (VTensor (T2 c))).
  rewrite (broadcast_single_column nsub a mean m k) by assumption.
  cbn [bind].
  rewrite (call_div_row _ stdDev m k)
    by (try apply tabulate_shape; assumption).
  eexists. split; [reflexivity|]. split; [apply tabulate_shape|].
  intros i j Hi Hj. now rewrite !entry_tabulate.
Qed.

Lemma normalizeTensor_single_column_witness :
  exists out,
    normalizeTensor (VTensor (T2 [[Fin 1]; [Fin 5]]))
                    (VTensor (T1 [Fin 3; Fin 4; Fin 5]))
                    (VTensor (T1 [Fin 2; Fin 4; Fin 8]))
    = Ok (VTensor (T2 out)) /\
    has_shape 2 3 out /\
    forall i j, (i < 2)%nat -> (j < 3)%nat ->
      entry out i j =
      ndiv (nsub (entry [[Fin 1]; [Fin 5]] i 0)
                 (nth j [Fin 3; Fin 4; Fin 5] NaN))
           (nth j [Fin 2; Fin 4; Fin 8] NaN).
Proof.
  apply (normalizeTensor_single_column [[Fin 1]; [Fin 5]]
           [Fin 3; Fin 4; Fin 5] [Fin 2; Fin 4; Fin 8] 2 3).
  - shape_tac.
  - lia.
  - reflexivity.
  - reflexivity.
Defined.

(** Statistics of one element serve every column: given a single mean and
    a single deviation, [normalizeTensor] subtracts that mean from every
    entry of the matrix and divides by that deviation. *)
Theorem normalizeTensor_shared_statistics (a : matrix) (mu sd : num) m n :
  has_shape m n a -> (1 <= m)%nat ->
  exists out,
    normalizeTensor (VTensor (T2 a)) (VTensor (T1 [mu])) (VTensor (T1 [sd]))
    = Ok (VTensor (T2 out)) /\
    has_shape m n out /\
    forall i j, (i < m)%nat -> (j < n)%nat ->
      entry out i j = ndiv (nsub (entry a i j) mu) sd.
Proof.
  intros H Hm. unfold normalizeTensor.
  change (call_method (VTensor (T2 a)) "sub" [VTensor (T1 [mu])])
    with (let* c := broadcast nsub a [[mu]] in Ok (VTensor (T2 c))).
  rewrite (broadcast_scalar nsub a mu m n) by assumption. cbn [bind].
  change (call_method (VTensor (T2 ?t)) "div" [VTensor (T1 [sd])])
    with (let* c := broadcast ndiv t [[sd]] in Ok (VTensor (T2 c))).
  rewrite (broadcast_scalar ndiv _ sd m n)
    by (try apply tabulate_shape; assumption).
  cbn [bind]. eexists. split; [reflexivity|].
  split; [apply tabulate_shape|].
  intros i j Hi Hj. now rewrite !entry_tabulate.
Qed.

Lemma normalizeTensor_shared_statistics_witness :
  exists out,
    normalizeTensor (VTensor (T2 [[Fin 1; Fin 2]; [Fin 5; Fin 8]]))
                    (VTensor (T1 [Fin 3])) (VTensor (T1 [Fin 2]))
    = Ok (VTensor (T2 out)) /\
    has_shape 2 2 out /\
    forall i j, (i < 2)%nat -> (j < 2)%nat ->
      entry out i j =
      ndiv (nsub (entry [[Fin 1; Fin 2]; [Fin 5; Fin 8]] i j) (Fin 3)) (Fin 2).
Proof.
  apply (normalizeTensor_shared_statistics
           [[Fin 1; Fin 2]; [Fin 5; Fin 8]] (Fin 3) (Fin 2) 2 2).
  - shape_tac.
  - lia.
Defined.

(** ** [determineMeanAndStddev] beyond matrices of finite numbers *)

Lemma column_as_seq m n (a : matrix) j :
  has_shape m n a -> column a j = map (fun i => entry a i j) (seq 0 m).
Proof.
  intros [Hm _]. unfold column, entry.
  rewrite (list_as_map [] a) at 1. rewrite map_map, Hm. reflexivity.
Qed.

Lemma determineMeanAndStddev_general m n (a : matrix) :
  has_shape m n a -> (1 <= m)%nat ->
  determineMeanAndStddev (VTensor (T2 a)) =
  Ok [("dataMean",
       VTensor (T1 (map (fun j => reduce_mean (column a j)) (seq 0 n))));
      ("dataStd",
       VTensor (T1 (map (fun j =>
          nsqrt (reduce_mean (map (fun i =>
            nmul (nsub (entry a i j) (reduce_mean (column a j)))
                 (nsub (entry a i j) (reduce_mean (column a j))))
            (seq 0 m)))) (seq 0 n))))].
Proof.
  intros H Hm. unfold determineMeanAndStddev.
  rewrite (call_reduce0 reduce_mean "mean") by reflexivity. cbn [bind].
  assert (map reduce_mean (columns a) =
          map (fun j => reduce_mean (column a j)) (seq 0 n)) as ->
      by (unfold columns; now rewrite (has_shape_ncols m n a H Hm), map_map).
  rewrite (call_sub_row a _ m n)
    by (try assumption; now rewrite length_map, length_seq).
  cbn [bind].
  change (call_method (VTensor (T2 ?t)) "square" [])
    with (Ok (VTensor (T2 (map (map (fun y => nmul y y)) t)))).
  cbn [bind]. rewrite map_tabulate.
  rewrite (call_reduce0 reduce_mean "mean") by reflexivity. cbn [bind].
  rewrite columns_tabulate by assumption.
  change (call_method (VTensor (T1 ?t)) "sqrt" [])
    with (Ok (VTensor (T1 (map nsqrt t)))).
  cbn [bind]. rewrite !map_map. do 6 f_equal.
  apply map_ext_in. intros j Hj. apply in_seq in Hj.
  do 2 f_equal. apply map_ext. intros i.
  now rewrite nth_map_seq by lia.
Qed.

Lemma nadd_nan_r a : nadd a NaN = NaN.
Proof. now destruct a. Qed.

Lemma fold_nadd_nan l : fold_left nadd l NaN = NaN.
Proof. induction l as [|x l IH]; [reflexivity | exact IH]. Qed.

Lemma fold_nadd_in_nan l acc : In NaN l -> fold_left nadd l acc = NaN.
Proof.
  revert acc. induction l as [|x l IH]; intros acc Hin; [contradiction|].
  cbn [fold_left]. destruct Hin as [->|Hin].
  - rewrite nadd_nan_r. apply fold_nadd_nan.
  - now apply IH.
Qed.

Lemma reduce_mean_nan l : In NaN l -> reduce_mean l = NaN.
Proof.
  intros Hin. unfold reduce_mean, reduce_sum. apply fold_nadd_in_nan.
  apply in_map_iff. exists NaN. split; [reflexivity | exact Hin].
Qed.

(** One NaN spoils the statistics of its column and of no step before the
    return: on a matrix that holds a NaN in column [j],
    [determineMeanAndStddev] throws nothing and returns NaN both as
    [dataMean[j]] and as [dataStd[j]]. *)
Theorem determineMeanAndStddev_nan m n (a : matrix) j :
  has_shape m n a -> (1 <= m)%nat -> (j < n)%nat ->
  In NaN (column a j) ->
  exists mean stdDev : list num,
    determineMeanAndStddev (VTensor (T2 a)) =
    Ok [("dataMean", VTensor (T1 mean)); ("dataStd", VTensor (T1 stdDev))] /\
    length mean = n /\ length stdDev = n /\
    nth j mean (Fin 0) = NaN /\ nth j stdDev (Fin 0) = NaN.
Proof.
  intros H Hm Hj Hin. eexists. eexists.
  split; [now apply (determineMeanAndStddev_general m n)|].
  split; [now rewrite length_map, length_seq|].
  split; [now rewrite length_map, length_seq|].
  rewrite !nth_map_seq by assumption.
  rewrite (reduce_mean_nan _ Hin). split; [reflexivity|].
  rewrite reduce_mean_nan; [reflexivity|].
  apply in_map_iff. exists 0%nat. split.
  - now destruct (entry a 0 j).
  - apply in_seq. lia.
Qed.

Lemma determineMeanAndStddev_nan_witness :
  exists mean stdDev : list num,
    determineMeanAndStddev (VTensor (T2 [[Fin 1; NaN]; [Fin 4; Fin 7]])) =
    Ok [("dataMean", VTensor (T1 mean)); ("dataStd", VTensor (T1 stdDev))] /\
    length mean = 2%nat /\ length stdDev = 2%nat /\
    nth 1 mean (Fin 0) = NaN /\ nth 1 stdDev (Fin 0) = NaN.
Proof.
  apply (determineMeanAndStddev_nan 2 2 [[Fin 1; NaN]; [Fin 4; Fin 7]] 1).
  - shape_tac.
  - lia.
  - lia.
  - left. reflexivity.
Defined.

(** ** What the last two transforms depend on *)

(** [normalizeTensorWithLogScaling] returns only where the global scope
    binds [tf]: whatever the argument, a call that returns was made in a
    scope that holds that name. *)
Theorem normalizeTensorWithLogScaling_needs_tf global data out :
  normalizeTensorWithLogScaling global data = Ok out ->
  global "tf" <> None.
Proof.
  unfold normalizeTensorWithLogScaling, lookup_global. intros H Hnone.
  rewrite Hnone in H.
  destruct (call_method data "log" []); discriminate.
Qed.

Lemma normalizeTensorWithLogScaling_needs_tf_witness :
  global_with_tf "tf" <> None.
Proof.
  apply (normalizeTensorWithLogScaling_needs_tf global_with_tf
           (tensor_of [[10]])
           (VTensor (T2 [[ndiv (nlog (Fin 10)) (nlog (Fin 10))]]))).
  reflexivity.
Defined.

(** [normalizeTensorWithRobustScaling] returns on no argument whatever:
    the receiver has no method [median], so that the first statement of
    the body already throws. *)
Theorem normalizeTensorWithRobustScaling_never_returns (data : value) :
  forall out, normalizeTensorWithRobustScaling data <> Ok out.
Proof.
  intros out. rewrite normalizeTensorWithRobustScaling_throws. discriminate.
Qed.

(** * The module on binary32 tensors *)

Module F32Facts.

Lemma f32_tabulate_shape r c f : has_shape r c (F32.tabulate r c f).
Proof.
  unfold has_shape, F32.tabulate. split.
  - now rewrite length_map, length_seq.
  - apply Forall_forall. intros x Hx. apply in_map_iff in Hx.
    destruct Hx as [i [<- _]]. now rewrite length_map, length_seq.
Qed.

Lemma f32_entry_tabulate r c f i j :
  (i < r)%nat -> (j < c)%nat -> F32.entry (F32.tabulate r c f) i j = f i j.
Proof.
  intros Hi Hj. unfold F32.entry, F32.tabulate.
  rewrite (nth_indep _ [] (map (f 0%nat) (seq 0 c)))
    by now rewrite length_map, length_seq.
  rewrite (map_nth (fun i => map (f i) (seq 0 c))), seq_nth by assumption.
  rewrite (nth_indep _ SpecFloat.S754_nan (f i 0%nat))
    by now rewrite length_map, length_seq.
  rewrite (map_nth (f i)), seq_nth by assumption. reflexivity.
Qed.

Lemma f32_tabulate_ext r c f g :
  (forall i j, (i < r)%nat -> (j < c)%nat -> f i j = g i j) ->
  F32.tabulate r c f = F32.tabulate r c g.
Proof.
  intros H. unfold F32.tabulate. apply map_ext_in. intros i Hi.
  apply map_ext_in. intros j Hj. apply in_seq in Hi, Hj. apply H; lia.
Qed.

Lemma f32_has_shape_ncols m n (a : F32.matrix) :
  has_shape m n a -> (1 <= m)%nat -> F32.ncols a = n.
Proof.
  intros H Hm. unfold F32.ncols.
  replace (hd [] a) with (nth 0 a []) by (destruct a; reflexivity).
  apply (has_shape_row m); [assumption | lia].
Qed.




Lemma f32_broadcast_row f (a : F32.matrix) (v : list F32.f32) m n :
  has_shape m n a -> (1 <= m)%nat -> length v = n ->
  F32.broadcast f a [v] =
  Ok (F32.tabulate m n (fun i j =>
        f (F32.entry a i j) (nth j v SpecFloat.S754_nan))).
Proof.
  intros H Hm Hv. unfold F32.broadcast.
  rewrite (f32_has_shape_ncols m n a H Hm).
  replace (F32.nrows a) with m by (symmetry; apply H).
  replace (F32.nrows [v]) with 1%nat by reflexivity.
  replace (F32.ncols [v]) with n by (symmetry; exact Hv).
  rewrite bdim_one_r, bdim_refl. f_equal. apply f32_tabulate_ext.
  intros i j Hi Hj. rewrite !bidx_lt by assumption. reflexivity.
Qed.


Lemma sub_row (a : F32.matrix) (v : list F32.f32) m n :
  has_shape m n a -> (1 <= m)%nat -> length v = n ->
  F32.sub (F32.T2 a) (F32.T1 v) =
  Ok (F32.T2 (F32.tabulate m n (fun i j =>
        F32.fsub (F32.entry a i j) (nth j v SpecFloat.S754_nan)))).
Proof.
  intros H Hm Hv. unfold F32.sub, F32.binop. cbn [F32.as_matrix].
  now rewrite (f32_broadcast_row F32.fsub a v m n).
Qed.

Lemma div_row (a : F32.matrix) (v : list F32.f32) m n :
  has_shape m n a -> (1 <= m)%nat -> length v = n ->
  F32.div (F32.T2 a) (F32.T1 v) =
  Ok (F32.T2 (F32.tabulate m n (fun i j =>
        F32.fdiv (F32.entry a i j) (nth j v SpecFloat.S754_nan)))).
Proof.
  intros H Hm Hv. unfold F32.div, F32.binop. cbn [F32.as_matrix].
  now rewrite (f32_broadcast_row F32.fdiv a v m n).
Qed.

Lemma f32_normalizeTensor_table (a : F32.matrix) (mean stdDev : list F32.f32)
      m n :
  has_shape m n a -> (1 <= m)%nat ->
  length mean = n -> length stdDev = n ->
  F32.normalizeTensor (F32.T2 a) (F32.T1 mean) (F32.T1 stdDev) =
  Ok (F32.T2 (F32.tabulate m n (fun i j =>
        F32.fdiv (F32.fsub (F32.entry a i j) (nth j mean SpecFloat.S754_nan))
                 (nth j stdDev SpecFloat.S754_nan)))).
Proof.
  intros H Hm Hmean Hstd. unfold F32.normalizeTensor.
  rewrite (sub_row a mean m n) by assumption. cbn [bind].
  rewrite (div_row _ stdDev m n)
    by (try apply f32_tabulate_shape; assumption).
  do 2 f_equal. apply f32_tabulate_ext. intros i j Hi Hj.
  now rewrite f32_entry_tabulate.
Qed.



End F32Facts.

(** C6: on binary32 tensors [normalizeTensor] returns a matrix of the shape
    of the input whose entry (i, j) is the IEEE quotient of the IEEE
    difference [a[i][j] - mean[j]] by [stdDev[j]], with the mean and the
    deviation that were passed in, whatever the entries (finite, zero of
    either sign, infinite or NaN).  With means [3,4] and deviations [2,4]
    the matrix [[1,2],[5,8]] becomes [[-1,-1/2],[1,1]]; the same
    statistics applied to other, held-out rows [[3,4],[7,0]] give
    [[0,0],[2,-1]]; and a deviation -0 turns the entry 1 into
    -Infinity. *)
Theorem normalizeTensor_float32 :
  (forall (a : F32.matrix) (mean stdDev : list F32.f32) (m n : nat),
      has_shape m n a -> (1 <= m)%nat ->
      length mean = n -> length stdDev = n ->
      exists out,
        F32.normalizeTensor (F32.T2 a) (F32.T1 mean) (F32.T1 stdDev) =
        Ok (F32.T2 out) /\
        has_shape m n out /\
        forall i j, (i < m)%nat -> (j < n)%nat ->
          F32.entry out i j =
          SpecFloat.SFdiv 24 128
            (SpecFloat.SFsub 24 128 (F32.entry a i j)
                             (nth j mean SpecFloat.S754_nan))
            (nth j stdDev SpecFloat.S754_nan)) /\
  F32.normalizeTensor
    (F32.T2 [[F32.of_Z 1; F32.of_Z 2]; [F32.of_Z 5; F32.of_Z 8]])
    (F32.T1 [F32.of_Z 3; F32.of_Z 4]) (F32.T1 [F32.of_Z 2; F32.of_Z 4]) =
  Ok (F32.T2 [[F32.of_Z (-1); f32_minus_half]; [F32.of_Z 1; F32.of_Z 1]]) /\
  F32.normalizeTensor
    (F32.T2 [[F32.of_Z 3; F32.of_Z 4]; [F32.of_Z 7; F32.of_Z 0]])
    (F32.T1 [F32.of_Z 3; F32.of_Z 4]) (F32.T1 [F32.of_Z 2; F32.of_Z 4]) =
  Ok (F32.T2 [[F32.of_Z 0; F32.of_Z 0]; [F32.of_Z 2; F32.of_Z (-1)]]) /\
  F32.normalizeTensor (F32.T2 [[F32.of_Z 1]]) (F32.T1 [F32.of_Z 0])
                      (F32.T1 [SpecFloat.S754_zero true]) =
  Ok (F32.T2 [[SpecFloat.S754_infinity true]]).
Proof.
  split; [|split; [|split]]; try (vm_compute; reflexivity).
  intros a mean stdDev m n H Hm Hmean Hstd. eexists. split.
  - now apply (F32Facts.f32_normalizeTensor_table a mean stdDev m n).
  - split; [apply F32Facts.f32_tabulate_shape|].
    intros i j Hi Hj. now rewrite F32Facts.f32_entry_tabulate.
Qed.

Lemma normalizeTensor_float32_witness :
  exists out,
    F32.normalizeTensor
      (F32.T2 [[F32.of_Z 1; F32.of_Z 2]; [F32.of_Z 5; F32.of_Z 8]])
      (F32.T1 [F32.of_Z 3; F32.of_Z 4]) (F32.T1 [F32.of_Z 2; F32.of_Z 4]) =
    Ok (F32.T2 out) /\
    has_shape 2 2 out /\
    forall i j, (i < 2)%nat -> (j < 2)%nat ->
      F32.entry out i j =
      SpecFloat.SFdiv 24 128
        (SpecFloat.SFsub 24 128
           (F32.entry [[F32.of_Z 1; F32.of_Z 2]; [F32.of_Z 5; F32.of_Z 8]] i j)
           (nth j [F32.of_Z 3; F32.of_Z 4] SpecFloat.S754_nan))
        (nth j [F32.of_Z 2; F32.of_Z 4] SpecFloat.S754_nan).
Proof.
  apply (proj1 normalizeTensor_float32
           [[F32.of_Z 1; F32.of_Z 2]; [F32.of_Z 5; F32.of_Z 8]]
           [F32.of_Z 3; F32.of_Z 4] [F32.of_Z 2; F32.of_Z 4] 2%nat 2%nat).
  - split; [reflexivity | repeat constructor].
  - lia.
  - reflexivity.
  - reflexivity.
Defined.




(** ** Differences and quotients at the edges *)







(** ** [determineMeanAndStddev] on tensors of lower rank *)

(** The function is not tied to rank 2.  On a vector (a tensor of rank 1),
    whatever its entries, it throws nothing and returns two scalars
    (tensors of rank 0) as [dataMean] and [dataStd]; on a scalar it
    throws, a tensor of rank 0 having no axis 0. *)
Theorem determineMeanAndStddev_rank :
  (forall v : list num,
      exists mu sd : num,
        determineMeanAndStddev (VTensor (T1 v)) =
        Ok [("dataMean", VTensor (T0 mu)); ("dataStd", VTensor (T0 sd))]) /\
  (forall x : num, determineMeanAndStddev (VTensor (T0 x)) = Throw TfError).
Proof.
  split; [|reflexivity].
  intros v. unfold determineMeanAndStddev.
  change (call_method (VTensor (T1 v)) "mean" [VNum 0])
    with (Ok (VTensor (T0 (reduce_mean v)))).
  cbn [bind].
  change (call_method (VTensor (T1 v)) "sub" [VTensor (T0 ?y)])
    with (let* c := broadcast nsub [v] [[y]] in
          Ok (VTensor (T1 (nth 0 c [])))).
  rewrite (broadcast_scalar nsub _ _ 1 (length v));
    [ | split; [reflexivity | repeat constructor] | lia ].
  cbn [bind]. eexists. eexists. reflexivity.
Qed.
